(** * Pixel-buffer analysis of undacted_v2 (utils/analysisUtils)

    A shallow embedding of the four exported functions of the analysis
    module: [analyzeLazyRedaction], [detectRedactionAtPoint],
    [estimateHiddenCharacters] and [generateEvidenceImage], together with
    the part of the canvas API they call, of the pointer and zoom
    handlers of the canvas editor that call the detector
    (components/CanvasEditor), and of the submit handler of the chat form
    (components/ChatInterface).

    Conventions of the embedding.
    - A canvas element is state: its size, its context mode and its
      bitmap.  The three functions that receive a canvas run in a small
      state-and-exception monad [DOM] over that element.
    - [ImageData.data] is the flat RGBA byte array the code indexes;
      indexing out of range yields [None] (JavaScript's [undefined]).
    - Luminance is computed in binary64, bit for bit as the engine does,
      with Rocq's primitive floats.
    - Other JavaScript numbers (probe coordinates, widths, quotients) are
      exact rationals, extended with the two infinities and NaN where a
      division can produce them.  The rounding of binary64 division and
      signed zeros are not modelled.
    - Rect fields are integers, as pixel coordinates are.
    - The React state of a component is a record; a handler is a function
      from the state the handler before it left to the next one, with
      the callbacks it called. *)

From Stdlib Require Import String.
From Stdlib Require Import ZArith QArith Qround Qabs List Bool Lia Lqa.
From Stdlib Require Import Floats.
From Stdlib Require Finite.
Import ListNotations.

Set Warnings "-inexact-float".
Local Open Scope Z_scope.

(** ** JavaScript numbers *)

Inductive number : Type :=
| Fin (q : Q)
| PosInfinity
| NegInfinity
| NaN.

Definition Qlt_bool (a b : Q) : bool := negb (Qle_bool b a).

Definition ofZ (z : Z) : number := Fin (inject_Z z).

Definition isFinite (v : number) : bool :=
  match v with Fin _ => true | _ => false end.

(** [a / b] on numbers.  A zero divisor gives an infinity carrying the
    sign of the dividend, or NaN for [0 / 0]. *)
Definition num_div (a b : number) : number :=
  match a, b with
  | NaN, _ | _, NaN => NaN
  | Fin p, Fin q =>
      if Qeq_bool q 0 then
        if Qeq_bool p 0 then NaN
        else if Qlt_bool 0 p then PosInfinity else NegInfinity
      else Fin (p / q)
  | Fin _, (PosInfinity | NegInfinity) => Fin 0
  | (PosInfinity | NegInfinity), (PosInfinity | NegInfinity) => NaN
  | PosInfinity, Fin q => if Qlt_bool q 0 then NegInfinity else PosInfinity
  | NegInfinity, Fin q => if Qlt_bool q 0 then PosInfinity else NegInfinity
  end.

(** [a > b]: false as soon as one side is NaN. *)
Definition num_gt (a b : number) : bool :=
  match a, b with
  | NaN, _ | _, NaN => false
  | Fin p, Fin q => Qlt_bool q p
  | PosInfinity, PosInfinity => false
  | PosInfinity, _ => true
  | _, NegInfinity => match a with NegInfinity => false | _ => true end
  | _, _ => false
  end.

(** [a === 0]. *)
Definition strict_eq_zero (a : number) : bool :=
  match a with Fin q => Qeq_bool q 0 | _ => false end.

(** [Math.round]: the nearest integer, a tie going to the larger one;
    infinities and NaN are returned as they are. *)
Definition Math_round (v : number) : number :=
  match v with
  | Fin q => Fin (inject_Z (Qfloor (q + (1 # 2))))
  | _ => v
  end.

(** ** Luminance, in binary64 *)

(** An element read from a byte array, converted to a number:
    [undefined] becomes NaN. *)
Definition toNumber (o : option Z) : float :=
  match o with
  | Some z => PrimFloat.of_uint63 (Uint63.of_Z z)
  | None => PrimFloat.nan
  end.

Definition luminance (r g b : option Z) : float :=
  (0.299 * toNumber r + 0.587 * toNumber g + 0.114 * toNumber b)%float.

(** ** Rectangles, exceptions and the canvas element *)

Module Rect.
Record t : Type := make { x : Z; y : Z; w : Z; h : Z }.
End Rect.
Abbreviation Rect := Rect.t.

Definition insideRect (R : Rect) (px py : Z) : bool :=
  (Rect.x R <=? px) && (px <? Rect.x R + Rect.w R)
  && (Rect.y R <=? py) && (py <? Rect.y R + Rect.h R).

Record RGBA : Type := rgba { red : Z; green : Z; blue : Z; alpha : Z }.

Definition transparentBlack : RGBA := rgba 0 0 0 0.

Inductive ContextMode : Type := ModeNone | Mode2D | ModeOther.

Record HTMLCanvasElement : Type := mkCanvas {
  width : Z;
  height : Z;
  contextMode : ContextMode;
  bitmap : Z -> Z -> RGBA
}.

Record ImageData : Type := mkImageData {
  imageWidth : Z;
  imageHeight : Z;
  data : list Z
}.

Inductive DOMException : Type := IndexSizeError | InvalidStateError.

Inductive Completion (A : Type) : Type :=
| Normal (a : A)
| Throw (e : DOMException).
Arguments Normal {A} a.
Arguments Throw {A} e.

(** Computations over one canvas element that may throw. *)
Definition DOM (A : Type) : Type :=
  HTMLCanvasElement -> Completion A * HTMLCanvasElement.

Definition ret {A} (a : A) : DOM A := fun c => (Normal a, c).

Definition bind {A B} (m : DOM A) (k : A -> DOM B) : DOM B :=
  fun c =>
    match m c with
    | (Normal a, c') => k a c'
    | (Throw e, c') => (Throw e, c')
    end.

Declare Scope dom_scope.
Delimit Scope dom_scope with dom.
Notation "x <- m ;; k" := (bind m (fun x => k))
  (at level 100, m at next level, right associativity) : dom_scope.

(** The rendering context handed out by [getContext('2d')]. *)
Inductive CanvasRenderingContext2D : Type := Context2D.

(** [canvas.getContext('2d')]: the first request on a canvas without a
    context creates the 2D context; a canvas bound to another context
    type answers null. *)
Definition getContext2d : DOM (option CanvasRenderingContext2D) :=
  fun c =>
    match contextMode c with
    | ModeNone =>
        (Normal (Some Context2D),
         mkCanvas (width c) (height c) Mode2D (bitmap c))
    | Mode2D => (Normal (Some Context2D), c)
    | ModeOther => (Normal None, c)
    end.

Definition getWidth : DOM Z := fun c => (Normal (width c), c).
Definition getHeight : DOM Z := fun c => (Normal (height c), c).

Definition inCanvas (c : HTMLCanvasElement) (px py : Z) : bool :=
  (0 <=? px) && (px <? width c) && (0 <=? py) && (py <? height c).

(** The pixel a read at [(px, py)] sees: outside the bitmap it is
    transparent black. *)
Definition pixelAt (c : HTMLCanvasElement) (px py : Z) : RGBA :=
  if inCanvas c px py then bitmap c px py else transparentBlack.

Definition pixelBytes (p : RGBA) : list Z :=
  [red p; green p; blue p; alpha p].

(** The coordinates of a [cols] by [rows] rectangle with top-left corner
    [(x0, y0)], row by row, each row left to right. *)
Definition zrange (lo : Z) (n : nat) : list Z :=
  map (fun i => lo + Z.of_nat i) (seq 0 n).

Definition grid (x0 y0 : Z) (cols rows : nat) : list (Z * Z) :=
  flat_map (fun py => map (fun px => (px, py)) (zrange x0 cols))
    (zrange y0 rows).

Definition rectPixels (c : HTMLCanvasElement) (x0 y0 : Z) (cols rows : nat)
  : list RGBA :=
  map (fun p => pixelAt c (fst p) (snd p)) (grid x0 y0 cols rows).

Definition rectBytes (c : HTMLCanvasElement) (x0 y0 : Z) (cols rows : nat)
  : list Z :=
  flat_map pixelBytes (rectPixels c x0 y0 cols rows).

(** [ctx.getImageData(sx, sy, sw, sh)]: a zero width or height is an
    IndexSizeError; a negative one extends the rectangle to the left or
    upwards.  Rows are stored top to bottom, four bytes per pixel. *)
Definition getImageData (_ : CanvasRenderingContext2D) (sx sy sw sh : Z)
  : DOM ImageData :=
  fun c =>
    if (sw =? 0) || (sh =? 0) then (Throw IndexSizeError, c)
    else
      let x0 := Z.min sx (sx + sw) in
      let y0 := Z.min sy (sy + sh) in
      (Normal (mkImageData (Z.abs sw) (Z.abs sh)
                 (rectBytes c x0 y0 (Z.to_nat (Z.abs sw)) (Z.to_nat (Z.abs sh)))),
       c).

(** [data[i]] *)
Definition at_index (d : list Z) (i : Z) : option Z :=
  if i <? 0 then None else nth_error d (Z.to_nat i).

(** ** Loops *)

(** [while (cond s) s = body s], run for at most [fuel] iterations. *)
Fixpoint while {S : Type} (fuel : nat) (cond : S -> bool) (body : S -> S)
  (s : S) : S :=
  match fuel with
  | O => s
  | Datatypes.S fuel' =>
      if cond s then while fuel' cond body (body s) else s
  end.

(** ** analyzeLazyRedaction *)

Definition threshold : float := 30%float.

(** The test in the body of the counting loop. *)
Definition suspicious (r g b : option Z) : bool :=
  let lum := luminance r g b in
  ((threshold <? lum) && (lum <? 250))%float.

(** One iteration of [for (let i = 0; i < data.length; i += 4)]; the
    state is [(i, nonBlackPixels)]. *)
Definition countStep (d : list Z) (s : Z * Z) : Z * Z :=
  let (i, nonBlackPixels) := s in
  let r := at_index d i in
  let g := at_index d (i + 1) in
  let b := at_index d (i + 2) in
  (i + 4, if suspicious r g b then nonBlackPixels + 1 else nonBlackPixels).

Definition countLoop (d : list Z) : Z :=
  snd (while (length d)
         (fun s => fst s <? Z.of_nat (length d)) (countStep d) (0, 0)).

(** The closing comparison [nonBlackPixels / totalPixels > 0.05] is taken
    in exact arithmetic.  In binary64 the quotient of two integers below
    2^52 lies on the same side of the literal 0.05 as the exact quotient
    lies of 1/20, so nothing is lost for any bitmap that can exist. *)
Definition analyzeLazyRedaction (rect : Rect) : DOM bool :=
  (ctx <- getContext2d ;;
   match ctx with
   | None => ret false
   | Some ctx =>
       imageData <- getImageData ctx (Rect.x rect) (Rect.y rect)
                      (Rect.w rect) (Rect.h rect) ;;
       let d := data imageData in
       let totalPixels := Rect.w rect * Rect.h rect in
       let nonBlackPixels := countLoop d in
       ret (num_gt (num_div (ofZ nonBlackPixels) (ofZ totalPixels))
              (Fin (5 # 100)))
   end)%dom.

(** ** detectRedactionAtPoint *)

(** The helper [isDark] of the detector, closed over the image data and
    the canvas size. *)
Definition isDark (d : list Z) (w h : Z) (x y : Q) : bool :=
  if Qlt_bool x 0 || Qle_bool (inject_Z w) x
     || Qlt_bool y 0 || Qle_bool (inject_Z h) y
  then false
  else
    let idx := (Qfloor y * w + Qfloor x) * 4 in
    let r := at_index d idx in
    let g := at_index d (idx + 1) in
    let b := at_index d (idx + 2) in
    let lum := luminance r g b in
    (lum <? 60)%float.

Definition padding : Z := 0.

(** Steps 2 to 4 of the detector: the three scans and the resulting
    rectangle, before the minimum size check. *)
Definition scanRect (d : list Z) (w h : Z) (startX startY : Q) : Rect :=
  let dark := isDark d w h in
  let minX := Qfloor startX in
  let maxX := Qfloor startX in
  let minX := while (Z.to_nat minX)
                (fun m => (m >? 0) && dark (inject_Z (m - 1)) startY)
                (fun m => m - 1) minX in
  let maxX := while (Z.to_nat (w - 1 - maxX))
                (fun m => (m <? w - 1) && dark (inject_Z (m + 1)) startY)
                (fun m => m + 1) maxX in
  let centerX := (minX + maxX) / 2 in
  let minY := Qfloor startY in
  let maxY := Qfloor startY in
  let minY := while (Z.to_nat minY)
                (fun m => (m >? 0) && dark (inject_Z centerX) (inject_Z (m - 1)))
                (fun m => m - 1) minY in
  let maxY := while (Z.to_nat (h - 1 - maxY))
                (fun m => (m <? h - 1) && dark (inject_Z centerX) (inject_Z (m + 1)))
                (fun m => m + 1) maxY in
  let centerY := (minY + maxY) / 2 in
  let refinedMinX := centerX in
  let refinedMaxX := centerX in
  let refinedMinX := while (Z.to_nat refinedMinX)
                (fun m => (m >? 0) && dark (inject_Z (m - 1)) (inject_Z centerY))
                (fun m => m - 1) refinedMinX in
  let refinedMaxX := while (Z.to_nat (w - 1 - refinedMaxX))
                (fun m => (m <? w - 1) && dark (inject_Z (m + 1)) (inject_Z centerY))
                (fun m => m + 1) refinedMaxX in
  Rect.make (refinedMinX - padding) (minY - padding)
    ((refinedMaxX - refinedMinX) + padding * 2)
    ((maxY - minY) + padding * 2).

Definition detectRedactionAtPoint (startX startY : Q) : DOM (option Rect) :=
  (ctx <- getContext2d ;;
   match ctx with
   | None => ret None
   | Some ctx =>
       w <- getWidth ;;
       h <- getHeight ;;
       if Qlt_bool startX 0 || Qle_bool (inject_Z w) startX
          || Qlt_bool startY 0 || Qle_bool (inject_Z h) startY
       then ret None
       else
         imageData <- getImageData ctx 0 0 w h ;;
         let d := data imageData in
         if negb (isDark d w h startX startY) then ret None
         else
           let rect := scanRect d w h startX startY in
           if (Rect.w rect <? 5) || (Rect.h rect <? 5) then ret None
           else ret (Some rect)
   end)%dom.

(** ** estimateHiddenCharacters *)

Definition estimateHiddenCharacters
  (redactionW referenceW referenceTextLength : number) : number :=
  if strict_eq_zero referenceTextLength then Fin 0
  else
    let avgCharWidth := num_div referenceW referenceTextLength in
    Math_round (num_div redactionW avgCharWidth).

(** ** generateEvidenceImage *)

Record Profile : Type := mkProfile {
  id : String.string;
  name : String.string;
  email : String.string;
  role : String.string;
  clearance : String.string
}.

Record Font : Type := mkFont {
  fontStyle : String.string;
  fontSizePx : Q;
  fontFamily : String.string
}.

Inductive TextAlign : Type := AlignStart | AlignCenter.
Inductive TextBaseline : Type := BaselineAlphabetic | BaselineMiddle.

(** A 2D context at work: the canvas it paints on and its drawing
    state. *)
Record Surface : Type := mkSurface {
  target : HTMLCanvasElement;
  fillStyle : RGBA;
  strokeStyle : RGBA;
  lineWidth : Z;
  font : Font;
  textAlign : TextAlign;
  textBaseline : TextBaseline;
  path : list (Z * Z)
}.

(** What [canvas.toDataURL('image/png')] returns, and the empty string
    of the early exit.  A PNG is lossless: the URL is modelled by the
    image it encodes. *)
Inductive URLString : Type :=
| EmptyString
| DataURLEmpty
| DataURLPng (w h : Z) (pixels : Z -> Z -> RGBA).

Definition createElementCanvas : HTMLCanvasElement :=
  mkCanvas 300 150 ModeNone (fun _ _ => transparentBlack).

(** Assigning [canvas.width] or [canvas.height] clears the bitmap. *)
Definition setWidth (c : HTMLCanvasElement) (v : Z) : HTMLCanvasElement :=
  mkCanvas v (height c) (contextMode c) (fun _ _ => transparentBlack).

Definition setHeight (c : HTMLCanvasElement) (v : Z) : HTMLCanvasElement :=
  mkCanvas (width c) v (contextMode c) (fun _ _ => transparentBlack).

(** The default drawing state of a new 2D context. *)
Definition newSurface (c : HTMLCanvasElement) : Surface :=
  mkSurface c (rgba 0 0 0 255) (rgba 0 0 0 255) 1
    (mkFont String.EmptyString 10 "sans-serif"%string) AlignStart BaselineAlphabetic [].

Definition withTarget (s : Surface) (c : HTMLCanvasElement) : Surface :=
  mkSurface c (fillStyle s) (strokeStyle s) (lineWidth s) (font s)
    (textAlign s) (textBaseline s) (path s).

(** Repaint the pixels of the target selected by [paint]. *)
Definition paintPixels (s : Surface) (paint : Z -> Z -> RGBA -> RGBA)
  : Surface :=
  let c := target s in
  withTarget s
    (mkCanvas (width c) (height c) (contextMode c)
       (fun px py =>
          if inCanvas c px py then paint px py (bitmap c px py)
          else bitmap c px py)).

Definition set_fillStyle (s : Surface) (v : RGBA) : Surface :=
  mkSurface (target s) v (strokeStyle s) (lineWidth s) (font s)
    (textAlign s) (textBaseline s) (path s).
Definition set_strokeStyle (s : Surface) (v : RGBA) : Surface :=
  mkSurface (target s) (fillStyle s) v (lineWidth s) (font s)
    (textAlign s) (textBaseline s) (path s).
Definition set_lineWidth (s : Surface) (v : Z) : Surface :=
  mkSurface (target s) (fillStyle s) (strokeStyle s) v (font s)
    (textAlign s) (textBaseline s) (path s).
Definition set_font (s : Surface) (v : Font) : Surface :=
  mkSurface (target s) (fillStyle s) (strokeStyle s) (lineWidth s) v
    (textAlign s) (textBaseline s) (path s).
Definition set_textAlign (s : Surface) (v : TextAlign) : Surface :=
  mkSurface (target s) (fillStyle s) (strokeStyle s) (lineWidth s) (font s)
    v (textBaseline s) (path s).
Definition set_textBaseline (s : Surface) (v : TextBaseline) : Surface :=
  mkSurface (target s) (fillStyle s) (strokeStyle s) (lineWidth s) (font s)
    (textAlign s) v (path s).
Definition set_path (s : Surface) (v : list (Z * Z)) : Surface :=
  mkSurface (target s) (fillStyle s) (strokeStyle s) (lineWidth s) (font s)
    (textAlign s) (textBaseline s) v.

Definition beginPath (s : Surface) : Surface := set_path s [].
Definition moveTo (s : Surface) (px py : Z) : Surface := set_path s [(px, py)].
Definition lineTo (s : Surface) (px py : Z) : Surface :=
  set_path s (path s ++ [(px, py)]).

(** The pixels a stroke covers.  The one path this module strokes is a
    horizontal segment with integer end points and an even line width:
    with the default butt caps it covers whole pixels only, the rows
    from [y - lineWidth/2] to [y + lineWidth/2 - 1]. *)
Definition strokeCovers (s : Surface) (px py : Z) : bool :=
  match path s with
  | [(x0, y0); (x1, y1)] =>
      (y0 =? y1) && Z.even (lineWidth s)
      && (Z.min x0 x1 <=? px) && (px <? Z.max x0 x1)
      && (y0 - lineWidth s / 2 <=? py) && (py <? y0 + lineWidth s / 2)
  | _ => false
  end.

Section Platform.

(** What the host's rendering stack decides: how a translucent source
    pixel is blended over an opaque or translucent one, which pixels a
    text run covers and how strongly (0 to 255), and the upper-casing
    of a string. *)
Variable blend : RGBA -> RGBA -> RGBA.
Variable textCoverage :
  Font -> TextAlign -> TextBaseline -> String.string -> Q -> Q -> Z -> Z -> Z.
Variable toUpperCase : String.string -> String.string.

(** Source-over compositing of [src] on [dst]. *)
Definition compose (src dst : RGBA) : RGBA :=
  if alpha src =? 255 then src
  else if alpha dst =? 0 then src
  else blend src dst.

(** [ctx.drawImage(image, dx, dy)] with a canvas as the image. *)
Definition drawImage (image : HTMLCanvasElement) (dx dy : Z) (s : Surface)
  : Completion Surface :=
  if (width image =? 0) || (height image =? 0) then Throw InvalidStateError
  else
    Normal (paintPixels s (fun px py old =>
      if inCanvas image (px - dx) (py - dy)
      then compose (bitmap image (px - dx) (py - dy)) old
      else old)).

(** [ctx.fillRect(rx, ry, rw, rh)] *)
Definition fillRect (rx ry rw rh : Z) (s : Surface) : Surface :=
  paintPixels s (fun px py old =>
    if insideRect (Rect.make rx ry rw rh) px py
    then compose (fillStyle s) old
    else old).

(** [ctx.stroke()] *)
Definition stroke (s : Surface) : Surface :=
  paintPixels s (fun px py old =>
    if strokeCovers s px py then compose (strokeStyle s) old else old).

(** [ctx.fillText(text, tx, ty)] *)
Definition fillText (text : String.string) (tx ty : Q) (s : Surface)
  : Surface :=
  paintPixels s (fun px py old =>
    let a := textCoverage (font s) (textAlign s) (textBaseline s)
               text tx ty px py in
    if a =? 0 then old
    else
      let f := fillStyle s in
      compose (rgba (red f) (green f) (blue f) (alpha f * a / 255)) old).

Definition toDataURL (c : HTMLCanvasElement) : URLString :=
  if (width c =? 0) || (height c =? 0) then DataURLEmpty
  else DataURLPng (width c) (height c) (bitmap c).

Definition jetBrainsMono : String.string := "JetBrains Mono"%string.

Definition generateEvidenceImage (redactionRect : Rect) (match_ : Profile)
  : DOM URLString :=
  fun originalCanvas =>
    let canvas := createElementCanvas in
    let canvas := setWidth canvas (width originalCanvas) in
    let canvas := setHeight canvas (height originalCanvas + 150) in
    match getContext2d canvas with
    | (Normal (Some _), canvas) =>
        match drawImage originalCanvas 0 0 (newSurface canvas) with
        | Throw e => (Throw e, originalCanvas)
        | Normal ctx =>
            let H := height originalCanvas in
            (* footer background *)
            let ctx := set_fillStyle ctx (rgba 0 0 0 255) in
            let ctx := fillRect 0 H (width (target ctx)) 150 ctx in
            (* footer border *)
            let ctx := set_strokeStyle ctx (rgba 0 255 65 255) in
            let ctx := set_lineWidth ctx 4 in
            let ctx := beginPath ctx in
            let ctx := moveTo ctx 0 H in
            let ctx := lineTo ctx (width (target ctx)) H in
            let ctx := stroke ctx in
            (* footer text *)
            let ctx := set_font ctx (mkFont "bold"%string 20 jetBrainsMono) in
            let ctx := set_fillStyle ctx (rgba 0 255 65 255) in
            let ctx := fillText "UNDACTED ANALYSIS REPORT"%string 20
                         (inject_Z (H + 40)) ctx in
            let ctx := set_font ctx (mkFont String.EmptyString 16 jetBrainsMono) in
            let ctx := set_fillStyle ctx (rgba 255 255 255 255) in
            let ctx := fillText
                         (String.append "SUBJECT MATCH: "%string
                            (toUpperCase (name match_)))
                         20 (inject_Z (H + 75)) ctx in
            let ctx := fillText
                         (String.append "ROLE: "%string
                            (String.append (role match_)
                               (String.append " | CLEARANCE: "%string
                                  (clearance match_))))
                         20 (inject_Z (H + 100)) ctx in
            let ctx := set_font ctx (mkFont "italic"%string 12 jetBrainsMono) in
            let ctx := set_fillStyle ctx (rgba 102 102 102 255) in
            let ctx := fillText
                         "DISCLAIMER: Hypothetical determination created by AI. Not an official legal document. Educational purposes only."%string
                         20 (inject_Z (H + 135)) ctx in
            (* overlay of the revealed text; a Rect object is always truthy *)
            let ctx := set_font ctx
                         (mkFont "bold"%string
                            (inject_Z (Rect.h redactionRect) * (7 # 10))%Q
                            jetBrainsMono) in
            let ctx := set_fillStyle ctx (rgba 0 255 65 255) in
            let ctx := set_textAlign ctx AlignCenter in
            let ctx := set_textBaseline ctx BaselineMiddle in
            let centerX := (inject_Z (Rect.x redactionRect)
                            + inject_Z (Rect.w redactionRect) / 2)%Q in
            let centerY := (inject_Z (Rect.y redactionRect)
                            + inject_Z (Rect.h redactionRect) / 2)%Q in
            let ctx := fillText (name match_) centerX centerY ctx in
            (Normal (toDataURL (target ctx)), originalCanvas)
        end
    | (Normal None, _) => (Normal EmptyString, originalCanvas)
    | (Throw e, _) => (Throw e, originalCanvas)
    end.

(** No text run of the host covers the pixel [(px, py)]. *)
Definition noTextAt (px py : Z) : Prop :=
  forall f a b t tx ty, textCoverage f a b t tx ty px py = 0.

(** Calls of the exported functions, one after the other, on the canvas
    of the page. *)
Inductive Call : Type :=
| CallDetect (startX startY : Q)
| CallAnalyze (rect : Rect)
| CallEstimate (redactionW referenceW referenceTextLength : number)
| CallGenerate (redactionRect : Rect) (match_ : Profile).

Inductive Answer : Type :=
| AnswerRect (r : Completion (option Rect))
| AnswerBool (b : Completion bool)
| AnswerNumber (n : number)
| AnswerURL (u : Completion URLString).

(** One call of an exported function on the canvas of the page: its
    answer and the canvas it leaves behind. *)
Definition perform (k : Call) (c : HTMLCanvasElement)
  : Answer * HTMLCanvasElement :=
  match k with
  | CallDetect x y =>
      let r := detectRedactionAtPoint x y c in (AnswerRect (fst r), snd r)
  | CallAnalyze rect =>
      let r := analyzeLazyRedaction rect c in (AnswerBool (fst r), snd r)
  | CallEstimate a b l => (AnswerNumber (estimateHiddenCharacters a b l), c)
  | CallGenerate rect m =>
      let r := generateEvidenceImage rect m c in
      (AnswerURL (fst r), snd r)
  end.

Fixpoint performAll (ks : list Call) (c : HTMLCanvasElement)
  : HTMLCanvasElement :=
  match ks with
  | [] => c
  | k :: ks' => performAll ks' (snd (perform k c))
  end.

End Platform.

(** ** Test fixtures *)

Definition black : RGBA := rgba 0 0 0 255.
Definition white : RGBA := rgba 255 255 255 255.

(** A [W] by [H] white canvas with the solid black rectangle [R]. *)
Definition blockCanvas (W H : Z) (R : Rect) : HTMLCanvasElement :=
  mkCanvas W H ModeNone (fun px py => if insideRect R px py then black else white).

(** A host that renders no glyph at all and never blends. *)
Definition noBlend (src dst : RGBA) : RGBA := src.
Definition noGlyphs (_ : Font) (_ : TextAlign) (_ : TextBaseline)
  (_ : String.string) (_ _ : Q) (_ _ : Z) : Z := 0.
Definition sameCase (s : String.string) : String.string := s.

(** A 2 x 2 mid-gray canvas. *)
Definition grayCanvas : HTMLCanvasElement :=
  mkCanvas 2 2 ModeNone (fun _ _ => rgba 128 128 128 255).

Definition someProfile : Profile :=
  mkProfile "p-1"%string "Ada"%string "ada@example.org"%string
    "Analyst"%string "L3"%string.

(** ** Vocabulary of the properties *)

(** Two states of a canvas that show the same image and agree on
    whether a 2D context can be had. *)
Definition sameImage (c c' : HTMLCanvasElement) : Prop :=
  width c = width c' /\ height c = height c' /\ bitmap c = bitmap c'
  /\ (contextMode c = ModeOther <-> contextMode c' = ModeOther).

(** The image data the detector reads: the whole bitmap. *)
Definition canvasBytes (c : HTMLCanvasElement) : list Z :=
  rectBytes c 0 0 (Z.to_nat (width c)) (Z.to_nat (height c)).

Definition outOfRange (w h : Z) (x y : Q) : bool :=
  Qlt_bool x 0 || Qle_bool (inject_Z w) x
  || Qlt_bool y 0 || Qle_bool (inject_Z h) y.

(** The luminance of the pixel under a probe point. *)
Definition probeLuminance (c : HTMLCanvasElement) (x y : Q) : float :=
  let p := bitmap c (Qfloor x) (Qfloor y) in
  luminance (Some (red p)) (Some (green p)) (Some (blue p)).

Definition pixelDark (p : RGBA) : bool :=
  (luminance (Some (red p)) (Some (green p)) (Some (blue p)) <? 60)%float.

(** Rounding to the nearest integer with a tie going away from zero, as
    the specification words it. *)
Definition roundHalfAwayFromZero (q : Q) : Z :=
  if Qle_bool 0 q then Qfloor (q + (1 # 2)) else Qceiling (q - (1 # 2)).

Definition pixelSuspicious (p : RGBA) : bool :=
  suspicious (Some (red p)) (Some (green p)) (Some (blue p)).

(** The number of pixels of the canvas that lie inside [rect] and whose
    luminance is strictly between 30 and 250. *)
Definition suspiciousInside (c : HTMLCanvasElement) (rect : Rect) : Z :=
  Z.of_nat
    (length
       (filter
          (fun p => insideRect rect (fst p) (snd p)
                    && pixelSuspicious (bitmap c (fst p) (snd p)))
          (grid 0 0 (Z.to_nat (width c)) (Z.to_nat (height c))))).

Definition sampleCanvas : HTMLCanvasElement :=
  blockCanvas 2 3 (Rect.make 0 0 1 1).

Definition blockFits (W H : Z) (R : Rect) : Prop :=
  0 <= Rect.x R /\ 0 <= Rect.y R
  /\ Rect.x R + Rect.w R <= W /\ Rect.y R + Rect.h R <= H.

Definition specBlock : Rect := Rect.make 10 10 40 20.

(** ** More arithmetic on numbers *)

(** [a < b] and [a >= b]: false as soon as one side is NaN. *)
Definition num_lt (a b : number) : bool := num_gt b a.

Definition num_ge (a b : number) : bool :=
  match a, b with
  | NaN, _ | _, NaN => false
  | _, _ => negb (num_gt b a)
  end.

Definition num_neg (a : number) : number :=
  match a with
  | Fin q => Fin (- q)
  | PosInfinity => NegInfinity
  | NegInfinity => PosInfinity
  | NaN => NaN
  end.

(** [a + b]: opposite infinities give NaN. *)
Definition num_add (a b : number) : number :=
  match a, b with
  | NaN, _ | _, NaN => NaN
  | Fin p, Fin q => Fin (p + q)
  | PosInfinity, NegInfinity | NegInfinity, PosInfinity => NaN
  | PosInfinity, _ | _, PosInfinity => PosInfinity
  | NegInfinity, _ | _, NegInfinity => NegInfinity
  end.

Definition num_sub (a b : number) : number := num_add a (num_neg b).

(** [a * b]: zero times an infinity gives NaN. *)
Definition num_mul (a b : number) : number :=
  match a, b with
  | NaN, _ | _, NaN => NaN
  | Fin p, Fin q => Fin (p * q)
  | Fin p, PosInfinity | PosInfinity, Fin p =>
      if Qeq_bool p 0 then NaN
      else if Qlt_bool 0 p then PosInfinity else NegInfinity
  | Fin p, NegInfinity | NegInfinity, Fin p =>
      if Qeq_bool p 0 then NaN
      else if Qlt_bool 0 p then NegInfinity else PosInfinity
  | PosInfinity, PosInfinity | NegInfinity, NegInfinity => PosInfinity
  | PosInfinity, NegInfinity | NegInfinity, PosInfinity => NegInfinity
  end.

(** [Math.min], [Math.max] and [Math.abs]: NaN as soon as an argument
    is. *)
Definition Math_min (a b : number) : number :=
  match a, b with
  | NaN, _ | _, NaN => NaN
  | _, _ => if num_gt a b then b else a
  end.

Definition Math_max (a b : number) : number :=
  match a, b with
  | NaN, _ | _, NaN => NaN
  | _, _ => if num_gt b a then b else a
  end.

Definition Math_abs (a : number) : number :=
  match a with
  | Fin q => Fin (Qabs q)
  | PosInfinity | NegInfinity => PosInfinity
  | NaN => NaN
  end.

(** ** The canvas editor (components/CanvasEditor) *)

(** A point and a rectangle in canvas coordinates, as the editor
    computes them: any numbers. *)
Module Point.
Record t : Type := make { x : number; y : number }.
End Point.

Module Box.
Record t : Type := make { x : number; y : number; w : number; h : number }.
End Box.

(** A rect of the detector, seen as the editor's rectangle. *)
Definition boxOfRect (r : Rect) : Box.t :=
  Box.make (ofZ (Rect.x r)) (ofZ (Rect.y r)) (ofZ (Rect.w r)) (ofZ (Rect.h r)).

Inductive Tool : Type := ToolRedaction | ToolReference.

(** The box of [canvas.getBoundingClientRect()]. *)
Record DOMRect : Type := mkDOMRect {
  left : number;
  top : number;
  boxWidth : number;
  boxHeight : number
}.

(** The state of the editor the pointer handlers read and write: the
    React state [isDrawing], [startPos], [currentRect] and the ref
    [isPanning].  A handler runs on the state the handler before it
    left. *)
Record Editor : Type := mkEditor {
  isDrawing : bool;
  startPos : Point.t;
  currentRect : option Box.t;
  isPanning : bool;
  lastPanCoordinates : Point.t
}.

(** The calls of the two callbacks of the properties. *)
Inductive Drawn : Type :=
| onRedactionDrawn (rect : Box.t)
| onReferenceDrawn (rect : Box.t).

(** [getClientCoordinates]: the canvas of [canvasRef.current], if
    mounted, with its box on the page. *)
Definition getClientCoordinates (canvas : option (HTMLCanvasElement * DOMRect))
  (clientX clientY : number) : Point.t :=
  match canvas with
  | None => Point.make (Fin 0) (Fin 0)
  | Some (cv, rect) =>
      let x := num_mul (num_sub clientX (left rect))
                 (num_div (ofZ (width cv)) (boxWidth rect)) in
      let y := num_mul (num_sub clientY (top rect))
                 (num_div (ofZ (height cv)) (boxHeight rect)) in
      Point.make x y
  end.

Definition set_isDrawing (e : Editor) (v : bool) : Editor :=
  mkEditor v (startPos e) (currentRect e) (isPanning e) (lastPanCoordinates e).
Definition set_startPos (e : Editor) (v : Point.t) : Editor :=
  mkEditor (isDrawing e) v (currentRect e) (isPanning e) (lastPanCoordinates e).
Definition set_currentRect (e : Editor) (v : option Box.t) : Editor :=
  mkEditor (isDrawing e) (startPos e) v (isPanning e) (lastPanCoordinates e).
Definition set_isPanning (e : Editor) (v : bool) : Editor :=
  mkEditor (isDrawing e) (startPos e) (currentRect e) v (lastPanCoordinates e).
Definition set_lastPanCoordinates (e : Editor) (v : Point.t) : Editor :=
  mkEditor (isDrawing e) (startPos e) (currentRect e) (isPanning e) v.

Definition handleStart (activeTool : option Tool)
  (canvas : option (HTMLCanvasElement * DOMRect))
  (clientX clientY : number) (e : Editor) : Editor :=
  match activeTool with
  | None => e
  | Some _ =>
      let e := set_isDrawing e true in
      let p := getClientCoordinates canvas clientX clientY in
      let e := set_startPos e p in
      set_currentRect e
        (Some (Box.make (Point.x p) (Point.y p) (Fin 0) (Fin 0)))
  end.

Definition handleMove (activeTool : option Tool)
  (canvas : option (HTMLCanvasElement * DOMRect))
  (clientX clientY : number) (e : Editor) : Editor :=
  if negb (isDrawing e) || match activeTool with None => true | _ => false end
  then e
  else
    let p := getClientCoordinates canvas clientX clientY in
    set_currentRect e
      (Some (Box.make
               (Math_min (Point.x (startPos e)) (Point.x p))
               (Math_min (Point.y (startPos e)) (Point.y p))
               (Math_abs (num_sub (Point.x p) (Point.x (startPos e))))
               (Math_abs (num_sub (Point.y p) (Point.y (startPos e)))))).

(** [detectRedactionAtPoint] called with any numbers: an infinite
    coordinate fails the range check, and with a NaN coordinate
    [data[idx]] is undefined, the luminance NaN, and the start point not
    dark. *)
Definition detectRedactionAtNumber (startX startY : number)
  : DOM (option Rect) :=
  match startX, startY with
  | Fin x, Fin y => detectRedactionAtPoint x y
  | _, _ =>
      (ctx <- getContext2d ;;
       match ctx with
       | None => ret None
       | Some ctx =>
           w <- getWidth ;;
           h <- getHeight ;;
           if num_lt startX (Fin 0) || num_ge startX (ofZ w)
              || num_lt startY (Fin 0) || num_ge startY (ofZ h)
           then ret None
           else
             imageData <- getImageData ctx 0 0 w h ;;
             ret None
       end)%dom
  end.

(** What a handler leaves behind: how it completed, the state of the
    editor, the callbacks it called, and the canvas. *)
Record Handled : Type := mkHandled {
  completion : Completion unit;
  editor : Editor;
  drawn : list Drawn;
  canvasAfter : option (HTMLCanvasElement * DOMRect)
}.

Definition handleEnd (activeTool : option Tool)
  (canvas : option (HTMLCanvasElement * DOMRect)) (e : Editor) : Handled :=
  if isPanning e then mkHandled (Normal tt) e [] canvas
  else
    match isDrawing e, currentRect e with
    | true, Some rect =>
        let e := set_isDrawing e false in
        let normalizedRect := rect in
        if num_gt (Box.w normalizedRect) (Fin 5)
           && num_gt (Box.h normalizedRect) (Fin 5)
        then
          let calls :=
            match activeTool with
            | Some ToolRedaction => [onRedactionDrawn normalizedRect]
            | Some ToolReference => [onReferenceDrawn normalizedRect]
            | None => []
            end in
          mkHandled (Normal tt) (set_currentRect e None) calls canvas
        else
          match activeTool, canvas with
          | Some ToolRedaction, Some (cv, box) =>
              match detectRedactionAtNumber (Point.x (startPos e))
                      (Point.y (startPos e)) cv with
              | (Normal (Some detectedRect), cv') =>
                  mkHandled (Normal tt) (set_currentRect e None)
                    [onRedactionDrawn (boxOfRect detectedRect)]
                    (Some (cv', box))
              | (Normal None, cv') =>
                  mkHandled (Normal tt) (set_currentRect e None) []
                    (Some (cv', box))
              | (Throw err, cv') =>
                  mkHandled (Throw err) e [] (Some (cv', box))
              end
          | _, _ => mkHandled (Normal tt) (set_currentRect e None) [] canvas
          end
    | _, _ => mkHandled (Normal tt) e [] canvas
    end.

(** The touches of a touch event, by their client coordinates. *)
Definition Touch : Type := (number * number)%type.

Definition midpoint (a b : Touch) : Point.t :=
  Point.make (num_div (num_add (fst a) (fst b)) (Fin 2))
    (num_div (num_add (snd a) (snd b)) (Fin 2)).

Definition onTouchStart (activeTool : option Tool)
  (canvas : option (HTMLCanvasElement * DOMRect))
  (touches : list Touch) (e : Editor) : Editor :=
  match touches with
  | [a; b] =>
      let e := set_isPanning e true in
      let e := set_isDrawing e false in
      let e := set_currentRect e None in
      set_lastPanCoordinates e (midpoint a b)
  | [a] =>
      match activeTool with
      | Some _ => handleStart activeTool canvas (fst a) (snd a) e
      | None => e
      end
  | _ => e
  end.

Definition onTouchEnd (activeTool : option Tool)
  (canvas : option (HTMLCanvasElement * DOMRect))
  (touches : list Touch) (e : Editor) : Handled :=
  if isPanning e && (length touches <? 2)%nat
  then mkHandled (Normal tt) (set_isPanning e false) [] canvas
  else handleEnd activeTool canvas e.

(** The scroll container of the editor. *)
Record Container : Type := mkContainer {
  clientWidth : Z;
  clientHeight : Z;
  scrollLeft : number;
  scrollTop : number
}.

Inductive ZoomMode : Type := ZoomFit | ZoomTo (factor : number).

(** The loaded image, by its natural size. *)
Record ImageSize : Type := mkImageSize { imageW : Z; imageH : Z }.

(** The inline style the resize handler writes, in px. *)
Record CanvasStyle : Type := mkCanvasStyle {
  styleWidth : number;
  styleHeight : number
}.

Section Host.

(** What the browser keeps of a value assigned to [scrollLeft] or
    [scrollTop] (it clamps to the scrollable range), and the repaint
    [draw()] of the editor. *)
Variable storeScrollLeft : Container -> number -> number.
Variable storeScrollTop : Container -> number -> number.
Variable draw : HTMLCanvasElement -> HTMLCanvasElement.

(** [onTouchMove]; the event holds at least the touch that moved. *)
Definition onTouchMove (activeTool : option Tool)
  (canvas : option (HTMLCanvasElement * DOMRect))
  (container : option Container)
  (touch0 : Touch) (others : list Touch) (e : Editor)
  : Editor * option Container :=
  match isPanning e, others, container with
  | true, [touch1], Some box =>
      let p := midpoint touch0 touch1 in
      let deltaX := num_sub (Point.x (lastPanCoordinates e)) (Point.x p) in
      let deltaY := num_sub (Point.y (lastPanCoordinates e)) (Point.y p) in
      let box := mkContainer (clientWidth box) (clientHeight box)
                   (storeScrollLeft box (num_add (scrollLeft box) deltaX))
                   (scrollTop box) in
      let box := mkContainer (clientWidth box) (clientHeight box)
                   (scrollLeft box)
                   (storeScrollTop box (num_add (scrollTop box) deltaY)) in
      (set_lastPanCoordinates e p, Some box)
  | _, _, _ =>
      match activeTool with
      | Some _ =>
          if isDrawing e && negb (isPanning e)
          then (handleMove activeTool canvas (fst touch0) (snd touch0) e,
                container)
          else (e, container)
      | None => (e, container)
      end
  end.

(** The pointer events of the canvas element and what the page looks
    like when one is dispatched. *)
Inductive PointerEvent : Type :=
| MouseDown (clientX clientY : number)
| MouseMove (clientX clientY : number)
| MouseUp
| MouseLeave
| TouchStart (touches : list Touch)
| TouchMove (touch0 : Touch) (others : list Touch)
| TouchEnd (touches : list Touch).

Record Page : Type := mkPage {
  activeTool : option Tool;
  canvasOnPage : option (HTMLCanvasElement * DOMRect);
  containerOnPage : option Container
}.

Definition dispatch (page : Page) (ev : PointerEvent) (e : Editor) : Handled :=
  let tool := activeTool page in
  let canvas := canvasOnPage page in
  match ev with
  | MouseDown cx cy =>
      mkHandled (Normal tt) (handleStart tool canvas cx cy e) [] canvas
  | MouseMove cx cy =>
      mkHandled (Normal tt) (handleMove tool canvas cx cy e) [] canvas
  | MouseUp | MouseLeave => handleEnd tool canvas e
  | TouchStart touches =>
      mkHandled (Normal tt) (onTouchStart tool canvas touches e) [] canvas
  | TouchMove touch0 others =>
      mkHandled (Normal tt)
        (fst (onTouchMove tool canvas (containerOnPage page) touch0 others e))
        [] canvas
  | TouchEnd touches => onTouchEnd tool canvas touches e
  end.

(** The callbacks called while a sequence of events is handled, each
    event with the page as it is then. *)
Fixpoint drawnDuring (events : list (Page * PointerEvent)) (e : Editor)
  : list Drawn :=
  match events with
  | [] => []
  | (page, ev) :: rest =>
      let r := dispatch page ev e in
      drawn r ++ drawnDuring rest (editor r)
  end.

(** [handleResize], for a mounted container, canvas and a loaded image:
    the new scale, the canvas and its style. *)
Definition handleResize (zoomMode : ZoomMode) (box : Container)
  (image : ImageSize) (cv : HTMLCanvasElement)
  : number * HTMLCanvasElement * CanvasStyle :=
  let containerWidth := clientWidth box in
  let containerHeight := clientHeight box in
  let scaleX := num_div (ofZ (containerWidth - 32)) (ofZ (imageW image)) in
  let scaleY := num_div (ofZ (containerHeight - 32)) (ofZ (imageH image)) in
  let fitScale := Math_min (Fin 1) (Math_min scaleX scaleY) in
  let finalScale :=
    match zoomMode with
    | ZoomTo z => z
    | ZoomFit => fitScale
    end in
  let cv := setWidth cv (imageW image) in
  let cv := setHeight cv (imageH image) in
  let style := mkCanvasStyle (num_mul (ofZ (imageW image)) finalScale)
                 (num_mul (ofZ (imageH image)) finalScale) in
  (finalScale, draw cv, style).

End Host.

(** [handleZoomIn], [handleZoomOut] and [handleFit]: the zoom mode they
    set, from the current scale. *)
Definition handleZoomIn (scale : number) : ZoomMode :=
  ZoomTo (num_mul scale (Fin (125 # 100))).

Definition handleZoomOut (scale : number) : ZoomMode :=
  ZoomTo (Math_max (Fin (1 # 10)) (num_mul scale (Fin (8 # 10)))).

Definition handleFit : ZoomMode := ZoomFit.

(** A point of the page, an idle editor and a page without canvas, for
    the examples. *)
Definition somePage : Page := mkPage (Some ToolRedaction) None None.
Definition idleEditor : Editor :=
  mkEditor false (Point.make (Fin 0) (Fin 0)) None false
    (Point.make (Fin 0) (Fin 0)).
Definition keepScroll (_ : Container) (v : number) : number := v.

(** The rect a callback received. *)
Definition drawnRect (d : Drawn) : Box.t :=
  match d with onRedactionDrawn r | onReferenceDrawn r => r end.

(** A press: the events that can start a drawing. *)
Definition isPress (ev : PointerEvent) : bool :=
  match ev with
  | MouseDown _ _ => true
  | TouchStart [_] => true
  | _ => false
  end.

Inductive ZoomClick : Type := ClickZoomIn | ClickZoomOut.

Section Zoom.

Variable draw : HTMLCanvasElement -> HTMLCanvasElement.

(** The scale after a click on a zoom button and the resize that
    follows it. *)
Definition scaleAfter (box : Container) (image : ImageSize)
  (cv : HTMLCanvasElement) (scale : number) (k : ZoomClick) : number :=
  let mode := match k with
              | ClickZoomIn => handleZoomIn scale
              | ClickZoomOut => handleZoomOut scale
              end in
  fst (fst (handleResize draw mode box image cv)).

Fixpoint scaleAfterAll (box : Container) (image : ImageSize)
  (cv : HTMLCanvasElement) (scale : number) (ks : list ZoomClick) : number :=
  match ks with
  | [] => scale
  | k :: rest =>
      scaleAfterAll box image cv (scaleAfter box image cv scale k) rest
  end.

End Zoom.

(** A run of pointer moves, and the callback of a tool. *)
Definition moveAll (activeTool : option Tool)
  (canvas : option (HTMLCanvasElement * DOMRect))
  (moves : list (number * number)) (e : Editor) : Editor :=
  fold_left (fun e m => handleMove activeTool canvas (fst m) (snd m) e)
    moves e.

Definition callbackOf (tool : Tool) : Box.t -> Drawn :=
  match tool with
  | ToolRedaction => onRedactionDrawn
  | ToolReference => onReferenceDrawn
  end.

(** ** The chat input (components/ChatInterface) *)

(** A JavaScript string: its UTF-16 code units. *)
Definition JSString : Type := list Z.

(** The code units [String.prototype.trim] strips: white space and line
    terminators. *)
Definition isWhiteSpace (u : Z) : bool :=
  existsb (Z.eqb u)
    [9; 10; 11; 12; 13; 32; 160; 5760;
     8192; 8193; 8194; 8195; 8196; 8197; 8198; 8199; 8200; 8201; 8202;
     8232; 8233; 8239; 8287; 12288; 65279].

Fixpoint trimStart (s : JSString) : JSString :=
  match s with
  | [] => []
  | u :: rest => if isWhiteSpace u then trimStart rest else s
  end.

Definition trim (s : JSString) : JSString :=
  rev (trimStart (rev (trimStart s))).

(** A string is truthy when it is not empty. *)
Definition truthy (s : JSString) : bool :=
  match s with [] => false | _ => true end.

(** [handleSubmit] of the chat form: the new content of the input field
    and the text passed to [onSendMessage], if it is called.  (The
    event's default action is prevented in every case.) *)
Definition handleSubmit (inputText : JSString) (isProcessing : bool)
  : JSString * option JSString :=
  if truthy (trim inputText) && negb isProcessing
  then ([], Some inputText)
  else (inputText, None).

(** * Properties *)

(** ** Comparisons on rationals *)

Lemma Qlt_bool_iff (a b : Q) : Qlt_bool a b = true <-> (a < b)%Q.
Proof.
  unfold Qlt_bool. rewrite negb_true_iff. split.
  - intros E. apply Qnot_le_lt. intros L.
    apply Qle_bool_iff in L. congruence.
  - intros L. destruct (Qle_bool b a) eqn:E; [|reflexivity].
    apply Qle_bool_iff in E. exfalso. exact (Qlt_not_le _ _ L E).
Qed.

Lemma Qlt_bool_false_iff (a b : Q) : Qlt_bool a b = false <-> (b <= a)%Q.
Proof.
  unfold Qlt_bool. rewrite negb_false_iff. apply Qle_bool_iff.
Qed.

Lemma Qle_bool_false_iff (a b : Q) : Qle_bool a b = false <-> (b < a)%Q.
Proof.
  rewrite <- Qlt_bool_iff. unfold Qlt_bool.
  destruct (Qle_bool a b); simpl; intuition congruence.
Qed.

Lemma Qeq_bool_false_iff (a b : Q) : Qeq_bool a b = false <-> ~ (a == b)%Q.
Proof.
  split.
  - intros E Heq. apply Qeq_bool_iff in Heq. congruence.
  - intros N. destruct (Qeq_bool a b) eqn:E; [|reflexivity].
    apply Qeq_bool_iff in E. contradiction.
Qed.

Lemma Qfloor_inject_le (q : Q) (z : Z) :
  (inject_Z z <= q)%Q <-> z <= Qfloor q.
Proof.
  split.
  - intros L. apply Qfloor_resp_le in L. now rewrite Qfloor_Z in L.
  - intros L. apply Qle_trans with (inject_Z (Qfloor q)).
    + rewrite <- Zle_Qle. exact L.
    + apply Qfloor_le.
Qed.

Lemma Qfloor_inject_lt (q : Q) (z : Z) :
  (q < inject_Z z)%Q <-> Qfloor q < z.
Proof.
  split.
  - intros L. destruct (Z_lt_le_dec (Qfloor q) z) as [|G]; [assumption|].
    apply Qfloor_inject_le in G. exfalso. exact (Qlt_not_le _ _ L G).
  - intros L. apply Qlt_le_trans with (inject_Z (Qfloor q + 1)).
    + apply Qlt_floor.
    + rewrite <- Zle_Qle. lia.
Qed.

(** ** The loops run to completion *)

(** A loop whose body decreases a measure has left its condition false
    once it was given as much fuel as the measure of its initial
    state. *)
Lemma while_terminates {S : Type} (measure : S -> nat) (cond : S -> bool)
  (body : S -> S) :
  (forall s, cond s = true -> (measure (body s) < measure s)%nat) ->
  forall fuel s, (measure s <= fuel)%nat ->
    cond (while fuel cond body s) = false.
Proof.
  intros Dec. induction fuel as [|fuel IH]; intros s L; simpl.
  - destruct (cond s) eqn:E; [|reflexivity].
    specialize (Dec s E). lia.
  - destruct (cond s) eqn:E; [|exact E].
    apply IH. specialize (Dec s E). lia.
Qed.

(** The scans of the detector stop because their condition fails, not
    because the fuel is spent. *)
Lemma scans_terminate (P : Z -> bool) (limit m : Z) :
  let lo := while (Z.to_nat m) (fun k => (k >? 0) && P (k - 1))
              (fun k => k - 1) m in
  let hi := while (Z.to_nat (limit - 1 - m))
              (fun k => (k <? limit - 1) && P (k + 1)) (fun k => k + 1) m in
  (lo >? 0) && P (lo - 1) = false /\ (hi <? limit - 1) && P (hi + 1) = false.
Proof.
  split.
  - apply (while_terminates Z.to_nat (fun k => (k >? 0) && P (k - 1))
             (fun k => k - 1)); [|lia].
    intros k C. apply andb_true_iff in C. destruct C as [C _].
    apply Z.gtb_lt in C. lia.
  - apply (while_terminates (fun k => Z.to_nat (limit - 1 - k))
             (fun k => (k <? limit - 1) && P (k + 1)) (fun k => k + 1)); [|lia].
    intros k C. apply andb_true_iff in C. destruct C as [C _].
    apply Z.ltb_lt in C. lia.
Qed.

(** So does the counting loop of the classifier, on any array. *)
Lemma countLoop_terminates (d : list Z) :
  let s := while (length d) (fun s => fst s <? Z.of_nat (length d))
             (countStep d) (0, 0) in
  (fst s <? Z.of_nat (length d)) = false.
Proof.
  apply (while_terminates (fun s => Z.to_nat (Z.of_nat (length d) - fst s))
           (fun s => fst s <? Z.of_nat (length d)) (countStep d));
    [|simpl; lia].
  intros [i n] C. cbn [fst] in C. apply Z.ltb_lt in C.
  unfold countStep. cbn [fst]. lia.
Qed.

(** ** The layout of image data *)

Lemma zrange_S (lo : Z) (n : nat) :
  zrange lo (S n) = lo :: zrange (lo + 1) n.
Proof.
  unfold zrange. simpl seq. simpl map. f_equal.
  - f_equal. lia.
  - rewrite <- seq_shift, map_map. apply map_ext. intros i. lia.
Qed.

Lemma zrange_length (lo : Z) (n : nat) : length (zrange lo n) = n.
Proof. unfold zrange. now rewrite length_map, length_seq. Qed.

Lemma in_zrange (lo : Z) (n : nat) (z : Z) :
  In z (zrange lo n) <-> lo <= z < lo + Z.of_nat n.
Proof.
  unfold zrange. rewrite in_map_iff. split.
  - intros [i [E I]]. apply in_seq in I. lia.
  - intros B. exists (Z.to_nat (z - lo)). split; [lia|].
    apply in_seq. lia.
Qed.

Lemma nth_error_zrange (lo : Z) (n i : nat) :
  (i < n)%nat -> nth_error (zrange lo n) i = Some (lo + Z.of_nat i).
Proof.
  intros L. unfold zrange. rewrite nth_error_map.
  rewrite nth_error_seq. destruct (Nat.ltb_spec i n); [reflexivity | lia].
Qed.

Lemma NoDup_zrange (lo : Z) (n : nat) : NoDup (zrange lo n).
Proof.
  revert lo. induction n as [|n IH]; intros lo.
  - constructor.
  - rewrite zrange_S. constructor; [|apply IH].
    rewrite in_zrange. lia.
Qed.

Lemma in_grid (x0 y0 : Z) (cols rows : nat) (px py : Z) :
  In (px, py) (grid x0 y0 cols rows) <->
  x0 <= px < x0 + Z.of_nat cols /\ y0 <= py < y0 + Z.of_nat rows.
Proof.
  unfold grid. rewrite in_flat_map. split.
  - intros [r [Ir Ip]]. apply in_map_iff in Ip. destruct Ip as [q [E Iq]].
    inversion E; subst. apply in_zrange in Ir. apply in_zrange in Iq. lia.
  - intros [Bx By]. exists py. split; [now apply in_zrange|].
    apply in_map_iff. exists px. split; [reflexivity | now apply in_zrange].
Qed.

Lemma NoDup_grid (x0 y0 : Z) (cols rows : nat) :
  NoDup (grid x0 y0 cols rows).
Proof.
  unfold grid. generalize (NoDup_zrange y0 rows).
  induction (zrange y0 rows) as [|r rs IH]; intros ND; simpl.
  - constructor.
  - inversion ND as [|? ? Hr Hrs]; subst.
    apply NoDup_app; [| now apply IH |].
    + apply Finite.Injective_map_NoDup; [|apply NoDup_zrange].
      intros a b E. now inversion E.
    + intros [a b] I1 I2. apply in_map_iff in I1. destruct I1 as [q [E _]].
      inversion E; subst. apply in_flat_map in I2.
      destruct I2 as [r' [Ir' Ip]]. apply in_map_iff in Ip.
      destruct Ip as [q' [E' _]]. inversion E'; subst. contradiction.
Qed.

Lemma nth_error_grid (x0 y0 : Z) (cols rows i j : nat) :
  (i < cols)%nat -> (j < rows)%nat ->
  nth_error (grid x0 y0 cols rows) (j * cols + i)
  = Some (x0 + Z.of_nat i, y0 + Z.of_nat j).
Proof.
  intros Li. unfold grid. revert y0 j.
  induction rows as [|rows IH]; intros y0 j Lj; [lia|].
  rewrite zrange_S. simpl flat_map.
  destruct j as [|j].
  - simpl. rewrite nth_error_app1 by (now rewrite length_map, zrange_length).
    rewrite nth_error_map, nth_error_zrange by assumption. simpl.
    do 2 f_equal. lia.
  - rewrite nth_error_app2 by (rewrite length_map, zrange_length; simpl; lia).
    rewrite length_map, zrange_length.
    replace (S j * cols + i - cols)%nat with (j * cols + i)%nat by (simpl; lia).
    rewrite IH by lia. do 2 f_equal. lia.
Qed.

Lemma nth_error_pixelBytes (ps : list RGBA) (n k : nat) (p : RGBA) :
  nth_error ps n = Some p -> (k < 4)%nat ->
  nth_error (flat_map pixelBytes ps) (4 * n + k) = nth_error (pixelBytes p) k.
Proof.
  revert n. induction ps as [|a ps IH]; intros n E Lk.
  - destruct n; discriminate.
  - destruct n as [|n].
    + simpl in E. inversion E; subst.
      destruct k as [|[|[|[|k]]]]; try reflexivity; lia.
    + simpl in E. replace (4 * S n + k)%nat with (4 + (4 * n + k))%nat by lia.
      simpl flat_map. unfold pixelBytes at 1. simpl. now apply IH.
Qed.

Lemma length_pixelBytes (ps : list RGBA) :
  length (flat_map pixelBytes ps) = (4 * length ps)%nat.
Proof. induction ps as [|p ps IH]; simpl; lia. Qed.

Lemma length_grid (x0 y0 : Z) (cols rows : nat) :
  length (grid x0 y0 cols rows) = (rows * cols)%nat.
Proof.
  unfold grid. revert y0. induction rows as [|rows IH]; intros y0.
  - reflexivity.
  - rewrite zrange_S. simpl flat_map. rewrite length_app, length_map.
    rewrite zrange_length, IH. simpl. lia.
Qed.

Lemma length_rectBytes (c : HTMLCanvasElement) (x0 y0 : Z) (cols rows : nat) :
  length (rectBytes c x0 y0 cols rows) = (4 * (rows * cols))%nat.
Proof.
  unfold rectBytes, rectPixels.
  now rewrite length_pixelBytes, length_map, length_grid.
Qed.

(** Reading channel [k] of the pixel in column [i], row [j] of the image
    data of a rectangle. *)
Lemma at_index_rectBytes (c : HTMLCanvasElement) (x0 y0 : Z)
  (cols rows : nat) (i j k : Z) :
  0 <= i < Z.of_nat cols -> 0 <= j < Z.of_nat rows -> 0 <= k < 4 ->
  at_index (rectBytes c x0 y0 cols rows) ((j * Z.of_nat cols + i) * 4 + k)
  = nth_error (pixelBytes (pixelAt c (x0 + i) (y0 + j))) (Z.to_nat k).
Proof.
  intros Bi Bj Bk. unfold at_index.
  destruct (Z.ltb_spec ((j * Z.of_nat cols + i) * 4 + k) 0) as [N|_]; [nia|].
  replace (Z.to_nat ((j * Z.of_nat cols + i) * 4 + k))
    with (4 * (Z.to_nat j * cols + Z.to_nat i) + Z.to_nat k)%nat by nia.
  unfold rectBytes, rectPixels.
  rewrite nth_error_pixelBytes
    with (p := pixelAt c (x0 + i) (y0 + j)); [reflexivity | | lia].
  rewrite nth_error_map, nth_error_grid by lia. simpl.
  now rewrite !Z2Nat.id by lia.
Qed.

(** ** Comparisons in binary64 *)

Lemma SFcompare_antisym (a b : spec_float) (o : comparison) :
  SFcompare a b = Some o -> SFcompare b a = Some (CompOpp o).
Proof.
  destruct a as [sa|sa| |sa ma ea], b as [sb|sb| |sb mb eb]; simpl;
    try discriminate; intros E; inversion E; subst; clear E;
    try (destruct sa; reflexivity); try (destruct sb; reflexivity);
    try (destruct sa, sb; reflexivity).
  destruct sa, sb; try reflexivity; f_equal;
    rewrite (Z.compare_antisym ea eb);
    destruct (ea ?= eb); simpl; try reflexivity;
    pose proof (Pos.compare_cont_antisym ma mb Eq) as P; simpl in P;
    rewrite <- P; now rewrite ?CompOpp_involutive.
Qed.

(** [a <= l] excludes [l < a]. *)
Lemma float_leb_not_ltb (a l : float) :
  (a <=? l)%float = true -> (l <? a)%float = false.
Proof.
  rewrite leb_spec, ltb_spec. unfold SFleb, SFltb.
  destruct (SFcompare (Prim2SF a) (Prim2SF l)) as [o|] eqn:E; [|discriminate].
  rewrite (SFcompare_antisym _ _ _ E).
  destruct o; simpl; congruence.
Qed.

(** ** detectRedactionAtPoint *)

Lemma outOfRange_false (w h : Z) (x y : Q) :
  outOfRange w h x y = false <->
  (0 <= x /\ x < inject_Z w /\ 0 <= y /\ y < inject_Z h)%Q.
Proof.
  unfold outOfRange. rewrite !orb_false_iff.
  rewrite !Qlt_bool_false_iff, !Qle_bool_false_iff. tauto.
Qed.

Lemma inRange_floor (w h : Z) (x y : Q) :
  outOfRange w h x y = false ->
  0 <= Qfloor x < w /\ 0 <= Qfloor y < h.
Proof.
  intros E. apply outOfRange_false in E. destruct E as (A & B & C & D).
  change 0%Q with (inject_Z 0) in A, C.
  apply Qfloor_inject_le in A, C. apply Qfloor_inject_lt in B, D. lia.
Qed.

Arguments scanRect : simpl never.
Arguments isDark : simpl never.
Arguments rectBytes : simpl never.

(** Image data do not depend on the context mode of the canvas. *)
Lemma rectBytes_mode (c : HTMLCanvasElement) (m : ContextMode)
  (x0 y0 : Z) (cols rows : nat) :
  rectBytes (mkCanvas (width c) (height c) m (bitmap c)) x0 y0 cols rows
  = rectBytes c x0 y0 cols rows.
Proof. reflexivity. Qed.

(** What a call of the detector returns, read off its control flow: it
    never throws, because the range check precedes [getImageData]. *)
Lemma detect_run (startX startY : Q) (c : HTMLCanvasElement) :
  fst (detectRedactionAtPoint startX startY c) =
  Normal
    match contextMode c with
    | ModeOther => None
    | _ =>
        if outOfRange (width c) (height c) startX startY then None
        else if negb (isDark (canvasBytes c) (width c) (height c) startX startY)
        then None
        else
          let rect := scanRect (canvasBytes c) (width c) (height c)
                        startX startY in
          if (Rect.w rect <? 5) || (Rect.h rect <? 5) then None
          else Some rect
    end.
Proof.
  unfold detectRedactionAtPoint, bind, getContext2d, getWidth, getHeight, ret.
  destruct (contextMode c) eqn:M; cbn [fst snd width height]; try reflexivity;
    fold (outOfRange (width c) (height c) startX startY);
    (destruct (outOfRange (width c) (height c) startX startY) eqn:B;
     [reflexivity|]);
    apply inRange_floor in B;
    unfold getImageData;
    (destruct ((width c =? 0) || (height c =? 0)) eqn:Z0;
     [apply orb_true_iff in Z0; lia|]);
    cbn [data fst];
    rewrite !Z.min_l, !Z.abs_eq by lia;
    rewrite ?rectBytes_mode; fold (canvasBytes c);
    destruct (isDark (canvasBytes c) (width c) (height c) startX startY);
    cbn [negb]; try reflexivity;
    match goal with |- context [if ?b then _ else _] => destruct b end;
    reflexivity.
Qed.

(** On the image data of the whole canvas, [isDark] at an in-range point
    tests the pixel that contains the point. *)
Lemma isDark_canvas (c : HTMLCanvasElement) (x y : Q) :
  outOfRange (width c) (height c) x y = false ->
  isDark (canvasBytes c) (width c) (height c) x y
  = pixelDark (bitmap c (Qfloor x) (Qfloor y)).
Proof.
  intros B. unfold isDark. fold (outOfRange (width c) (height c) x y).
  rewrite B. apply inRange_floor in B. destruct B as [Bx By].
  unfold canvasBytes.
  pose proof (at_index_rectBytes c 0 0 (Z.to_nat (width c))
                (Z.to_nat (height c)) (Qfloor x) (Qfloor y)) as L.
  rewrite !Z2Nat.id in L by lia.
  pose proof (L 0 ltac:(lia) ltac:(lia) ltac:(lia)) as L0.
  pose proof (L 1 ltac:(lia) ltac:(lia) ltac:(lia)) as L1.
  pose proof (L 2 ltac:(lia) ltac:(lia) ltac:(lia)) as L2.
  rewrite Z.add_0_r in L0. rewrite L0, L1, L2.
  unfold pixelAt, inCanvas. simpl.
  destruct (Z.leb_spec 0 (Qfloor x)); [|lia].
  destruct (Z.ltb_spec (Qfloor x) (width c)); [|lia].
  destruct (Z.leb_spec 0 (Qfloor y)); [|lia].
  destruct (Z.ltb_spec (Qfloor y) (height c)); [|lia].
  reflexivity.
Qed.

Lemma isDark_outOfRange (d : list Z) (w h : Z) (x y : Q) :
  outOfRange w h x y = true -> isDark d w h x y = false.
Proof.
  intros B. unfold isDark. fold (outOfRange w h x y). now rewrite B.
Qed.



(** C4.  A rect returned by the detector is the scanned candidate and is
    at least 5 wide and 5 high; a candidate narrower or lower than 5
    gives NotFound. *)
Theorem detect_min_size (c : HTMLCanvasElement) (x y : Q) :
  let candidate := scanRect (canvasBytes c) (width c) (height c) x y in
  (forall rect,
      fst (detectRedactionAtPoint x y c) = Normal (Some rect) ->
      rect = candidate /\ 5 <= Rect.w rect /\ 5 <= Rect.h rect)
  /\ (Rect.w candidate < 5 \/ Rect.h candidate < 5 ->
      fst (detectRedactionAtPoint x y c) = Normal None).
Proof.
  intros candidate. rewrite detect_run. cbv zeta. fold candidate.
  destruct ((Rect.w candidate <? 5) || (Rect.h candidate <? 5)) eqn:S.
  - split.
    + intros rect E.
      destruct (contextMode c), (outOfRange (width c) (height c) x y),
        (negb (isDark (canvasBytes c) (width c) (height c) x y));
        discriminate.
    + intros _.
      now destruct (contextMode c), (outOfRange (width c) (height c) x y),
        (negb (isDark (canvasBytes c) (width c) (height c) x y)).
  - apply orb_false_iff in S. destruct S as [Sw Sh].
    apply Z.ltb_ge in Sw, Sh. split.
    + intros rect E.
      destruct (contextMode c), (outOfRange (width c) (height c) x y),
        (negb (isDark (canvasBytes c) (width c) (height c) x y));
        inversion E; subst; auto.
    + lia.
Qed.

Lemma detect_min_size_witness :
  Rect.make 1 1 5 5
  = scanRect (canvasBytes (blockCanvas 8 8 (Rect.make 1 1 6 6))) 8 8 3 3
  /\ 5 <= 5 /\ 5 <= 5.
Proof.
  apply (proj1 (detect_min_size (blockCanvas 8 8 (Rect.make 1 1 6 6)) 3 3)
           (Rect.make 1 1 5 5)).
  vm_compute. reflexivity.
Defined.

(** ** estimateHiddenCharacters *)

(** C7.  The three pinned values: [(100, 50, 5)] gives 10, [(0, 50, 5)]
    gives 0, and a reference text of length 0 gives 0 whatever the two
    widths are. *)
Theorem estimate_pinned_values :
  estimateHiddenCharacters (Fin 100) (Fin 50) (Fin 5) = Fin 10
  /\ estimateHiddenCharacters (Fin 0) (Fin 50) (Fin 5) = Fin 0
  /\ forall redactionW referenceW : number,
       estimateHiddenCharacters redactionW referenceW (Fin 0) = Fin 0.
Proof. repeat split. Qed.


Lemma estimate_finite (redactionW referenceW len : Q) :
  (0 < len)%Q -> ~ (referenceW == 0)%Q ->
  estimateHiddenCharacters (Fin redactionW) (Fin referenceW) (Fin len)
  = Fin (inject_Z (Qfloor (redactionW / (referenceW / len) + (1 # 2)))).
Proof.
  intros L N. unfold estimateHiddenCharacters, strict_eq_zero.
  assert (Nl : ~ (len == 0)%Q) by (intros E; rewrite E in L; discriminate).
  rewrite (proj2 (Qeq_bool_false_iff _ _) Nl). simpl num_div.
  rewrite (proj2 (Qeq_bool_false_iff _ _) Nl).
  assert (Na : ~ (referenceW / len == 0)%Q).
  { intros E. apply N. rewrite <- (Qmult_div_r referenceW len Nl).
    rewrite E. ring. }
  simpl num_div. now rewrite (proj2 (Qeq_bool_false_iff _ _) Na).
Qed.



(** C10.  Only a zero text length is guarded.  With a positive text
    length and a reference width of 0 the average character width is 0,
    and the quotient by it is an infinity or NaN: the result is not a
    finite number, whatever the redaction width. *)
Theorem estimate_zero_reference_width (redactionW : number) (len : Q) :
  (0 < len)%Q ->
  (exists a, num_div (Fin 0) (Fin len) = Fin a /\ (a == 0)%Q)
  /\ isFinite (estimateHiddenCharacters redactionW (Fin 0) (Fin len)) = false.
Proof.
  intros L.
  assert (Nl : Qeq_bool len 0 = false).
  { apply Qeq_bool_false_iff. intros E. rewrite E in L. discriminate. }
  assert (Z0 : Qeq_bool (0 / len) 0 = true).
  { apply Qeq_bool_iff. unfold Qdiv. ring. }
  split.
  - exists (0 / len)%Q. simpl. rewrite Nl. split; [reflexivity|].
    now apply Qeq_bool_iff.
  - unfold estimateHiddenCharacters, strict_eq_zero. rewrite Nl.
    simpl num_div. rewrite Nl.
    destruct redactionW as [q| | |]; simpl; rewrite ?Z0.
    + destruct (Qeq_bool q 0); [reflexivity|].
      destruct (Qlt_bool 0 q); reflexivity.
    + destruct (Qlt_bool (0 / len) 0); reflexivity.
    + destruct (Qlt_bool (0 / len) 0); reflexivity.
    + reflexivity.
Qed.

Lemma estimate_zero_reference_width_witness :
  (exists a, num_div (Fin 0) (Fin 5) = Fin a /\ (a == 0)%Q)
  /\ isFinite (estimateHiddenCharacters (Fin 100) (Fin 0) (Fin 5)) = false.
Proof.
  apply (estimate_zero_reference_width (Fin 100) 5). reflexivity.
Defined.

(** ** analyzeLazyRedaction *)

Lemma while_exit {S : Type} (fuel : nat) (cond : S -> bool) (body : S -> S)
  (s : S) :
  cond s = false -> while fuel cond body s = s.
Proof. intros E. destruct fuel; simpl; [reflexivity | now rewrite E]. Qed.

(** The counting loop visits the pixels of the array one by one. *)
Lemma countLoop_from (ps : list RGBA) :
  forall (pre d : list Z) (n : Z) (fuel : nat),
    d = pre ++ flat_map pixelBytes ps ->
    (length ps <= fuel)%nat ->
    while fuel (fun s => fst s <? Z.of_nat (length d)) (countStep d)
      (Z.of_nat (length pre), n)
    = (Z.of_nat (length d),
       n + Z.of_nat (length (filter pixelSuspicious ps))).
Proof.
  induction ps as [|p ps IH]; intros pre d n fuel Ed Lf.
  - simpl in Ed. rewrite app_nil_r in Ed. subst d.
    rewrite while_exit by (simpl; apply Z.ltb_irrefl).
    simpl. f_equal. lia.
  - destruct fuel as [|fuel]; [simpl in Lf; lia|].
    simpl flat_map in Ed. unfold pixelBytes at 1 in Ed.
    assert (Ld : (length pre + 4 <= length d)%nat).
    { subst d. rewrite length_app. simpl. lia. }
    simpl while. cbn [fst].
    destruct (Z.ltb_spec (Z.of_nat (length pre)) (Z.of_nat (length d)));
      [|lia].
    assert (A : forall k v, (k < 4)%nat ->
              nth_error [red p; green p; blue p; alpha p] k = Some v ->
              at_index d (Z.of_nat (length pre) + Z.of_nat k) = Some v).
    { intros k v Lk E. unfold at_index.
      destruct (Z.ltb_spec (Z.of_nat (length pre) + Z.of_nat k) 0); [lia|].
      replace (Z.to_nat (Z.of_nat (length pre) + Z.of_nat k))
        with (length pre + k)%nat by lia.
      subst d. rewrite nth_error_app2 by lia.
      replace (length pre + k - length pre)%nat with k by lia.
      destruct k as [|[|[|[|k]]]]; simpl in *; try assumption; lia. }
    pose proof (A 0%nat (red p) ltac:(lia) eq_refl) as A0.
    pose proof (A 1%nat (green p) ltac:(lia) eq_refl) as A1.
    pose proof (A 2%nat (blue p) ltac:(lia) eq_refl) as A2.
    simpl Z.of_nat in A0, A1, A2. rewrite Z.add_0_r in A0.
    rewrite A0, A1, A2. fold (pixelSuspicious p).
    replace (Z.of_nat (length pre) + 4)
      with (Z.of_nat (length (pre ++ [red p; green p; blue p; alpha p])))
      by (rewrite length_app; simpl; lia).
    rewrite IH; [| subst d; now rewrite <- app_assoc | simpl in Lf; lia].
    simpl filter. destruct (pixelSuspicious p); simpl length; f_equal; lia.
Qed.

Lemma countLoop_pixels (ps : list RGBA) :
  countLoop (flat_map pixelBytes ps)
  = Z.of_nat (length (filter pixelSuspicious ps)).
Proof.
  unfold countLoop.
  rewrite (countLoop_from ps [] (flat_map pixelBytes ps) 0); simpl;
    [reflexivity | reflexivity | rewrite length_pixelBytes; lia].
Qed.

Lemma length_filter_map {A B : Type} (f : A -> B) (P : B -> bool)
  (l : list A) :
  length (filter P (map f l)) = length (filter (fun a => P (f a)) l).
Proof.
  induction l as [|a l IH]; simpl; [reflexivity|].
  destruct (P (f a)); simpl; now rewrite IH.
Qed.

Lemma filter_none {A : Type} (P : A -> bool) (l : list A) :
  (forall a, In a l -> P a = false) -> filter P l = [].
Proof.
  induction l as [|a l IH]; intros N; simpl; [reflexivity|].
  rewrite (N a (or_introl eq_refl)). apply IH.
  intros b I. apply N. now right.
Qed.

Lemma insideRect_iff (R : Rect) (px py : Z) :
  insideRect R px py = true <->
  Rect.x R <= px < Rect.x R + Rect.w R /\ Rect.y R <= py < Rect.y R + Rect.h R.
Proof.
  unfold insideRect. rewrite !andb_true_iff, !Z.leb_le, !Z.ltb_lt. lia.
Qed.

Lemma inCanvas_iff (c : HTMLCanvasElement) (px py : Z) :
  inCanvas c px py = true <-> 0 <= px < width c /\ 0 <= py < height c.
Proof.
  unfold inCanvas. rewrite !andb_true_iff, !Z.leb_le, !Z.ltb_lt. lia.
Qed.

Lemma transparentBlack_not_suspicious :
  pixelSuspicious transparentBlack = false.
Proof. reflexivity. Qed.

(** The pixels [getImageData] delivers for a rectangle with positive
    sides hold as many suspicious ones as the canvas has inside that
    rectangle: what lies outside the bitmap reads transparent black. *)
Lemma suspicious_rectPixels (c : HTMLCanvasElement) (rect : Rect) :
  0 <= Rect.w rect -> 0 <= Rect.h rect ->
  Z.of_nat
    (length
       (filter pixelSuspicious
          (rectPixels c (Rect.x rect) (Rect.y rect)
             (Z.to_nat (Rect.w rect)) (Z.to_nat (Rect.h rect)))))
  = suspiciousInside c rect.
Proof.
  intros Pw Ph. unfold suspiciousInside, rectPixels. f_equal.
  rewrite length_filter_map.
  apply Nat.le_antisymm; apply NoDup_incl_length;
    try (apply NoDup_filter, NoDup_grid);
    intros [px py] I; apply filter_In in I; destruct I as [G S];
    apply filter_In; cbn [fst snd] in *; apply in_grid in G.
  - unfold pixelAt in S. destruct (inCanvas c px py) eqn:IC;
      [|rewrite transparentBlack_not_suspicious in S; discriminate].
    apply inCanvas_iff in IC. split.
    + apply in_grid. lia.
    + rewrite S, andb_true_r. apply insideRect_iff. lia.
  - apply andb_true_iff in S. destruct S as [IR S].
    apply insideRect_iff in IR. split.
    + apply in_grid. lia.
    + unfold pixelAt.
      rewrite (proj2 (inCanvas_iff c px py)) by lia. exact S.
Qed.

(** What a call of the classifier returns on a canvas that grants a 2D
    context. *)
Lemma analyze_run (rect : Rect) (c : HTMLCanvasElement) :
  contextMode c <> ModeOther ->
  fst (analyzeLazyRedaction rect c) =
  if (Rect.w rect =? 0) || (Rect.h rect =? 0) then Throw IndexSizeError
  else
    Normal
      (num_gt
         (num_div
            (ofZ (countLoop
                    (rectBytes c
                       (Z.min (Rect.x rect) (Rect.x rect + Rect.w rect))
                       (Z.min (Rect.y rect) (Rect.y rect + Rect.h rect))
                       (Z.to_nat (Z.abs (Rect.w rect)))
                       (Z.to_nat (Z.abs (Rect.h rect))))))
            (ofZ (Rect.w rect * Rect.h rect)))
         (Fin (5 # 100))).
Proof.
  intros M.
  unfold analyzeLazyRedaction, bind, getContext2d, getImageData, ret.
  destruct (contextMode c) eqn:E; [| |contradiction];
    destruct ((Rect.w rect =? 0) || (Rect.h rect =? 0)); reflexivity.
Qed.

Lemma ratio_exceeds (n t : Z) :
  0 < t ->
  num_gt (num_div (ofZ n) (ofZ t)) (Fin (5 # 100)) = true
  <-> ((5 # 100) * inject_Z t < inject_Z n)%Q.
Proof.
  intros Pt. unfold ofZ, num_div.
  assert (Qt : (0 < inject_Z t)%Q).
  { change 0%Q with (inject_Z 0). now rewrite <- Zlt_Qlt. }
  assert (Nt : ~ (inject_Z t == 0)%Q) by (intros E; rewrite E in Qt; discriminate).
  rewrite (proj2 (Qeq_bool_false_iff _ _) Nt). unfold num_gt.
  rewrite Qlt_bool_iff.
  rewrite <- (Qmult_lt_r _ _ (inject_Z t) Qt).
  setoid_replace (inject_Z n / inject_Z t * inject_Z t)%Q with (inject_Z n)
    by (field; exact Nt).
  reflexivity.
Qed.





(** ** generateEvidenceImage *)

Lemma target_paintPixels (s : Surface) (paint : Z -> Z -> RGBA -> RGBA) :
  width (target (paintPixels s paint)) = width (target s)
  /\ height (target (paintPixels s paint)) = height (target s).
Proof. split; reflexivity. Qed.

Lemma bitmap_paintPixels (s : Surface) (paint : Z -> Z -> RGBA -> RGBA)
  (px py : Z) :
  bitmap (target (paintPixels s paint)) px py
  = if inCanvas (target s) px py then paint px py (bitmap (target s) px py)
    else bitmap (target s) px py.
Proof. reflexivity. Qed.

Lemma strokeCovers_rows (s : Surface) (x0 x1 y0 px py : Z) :
  path s = [(x0, y0); (x1, y0)] ->
  strokeCovers s px py = true ->
  y0 - lineWidth s / 2 <= py < y0 + lineWidth s / 2.
Proof.
  intros P. unfold strokeCovers. rewrite P.
  rewrite !andb_true_iff, !Z.leb_le, !Z.ltb_lt. tauto.
Qed.

Section PlatformFacts.

Variable blend : RGBA -> RGBA -> RGBA.
Variable textCoverage :
  Font -> TextAlign -> TextBaseline -> String.string -> Q -> Q -> Z -> Z -> Z.
Variable toUpperCase : String.string -> String.string.

Lemma bitmap_fillText (t : String.string) (tx ty : Q) (s : Surface)
  (px py : Z) :
  noTextAt textCoverage px py ->
  bitmap (target (fillText blend textCoverage t tx ty s)) px py
  = bitmap (target s) px py.
Proof.
  intros N. unfold fillText. rewrite bitmap_paintPixels, N. simpl.
  now destruct (inCanvas (target s) px py).
Qed.

Lemma bitmap_fillRect_outside (rx ry rw rh : Z) (s : Surface) (px py : Z) :
  insideRect (Rect.make rx ry rw rh) px py = false ->
  bitmap (target (fillRect blend rx ry rw rh s)) px py
  = bitmap (target s) px py.
Proof.
  intros O. unfold fillRect. rewrite bitmap_paintPixels, O.
  now destruct (inCanvas (target s) px py).
Qed.

Lemma bitmap_stroke_outside (s : Surface) (px py : Z) :
  strokeCovers s px py = false ->
  bitmap (target (stroke blend s)) px py = bitmap (target s) px py.
Proof.
  intros O. unfold stroke. rewrite bitmap_paintPixels, O.
  now destruct (inCanvas (target s) px py).
Qed.

Lemma compose_on_transparent (src : RGBA) :
  compose blend src transparentBlack = src.
Proof. unfold compose. simpl. now destruct (alpha src =? 255). Qed.

Lemma compose_opaque (src dst : RGBA) :
  alpha src = 255 -> compose blend src dst = src.
Proof. intros A. unfold compose. now rewrite A. Qed.

Lemma size_fillText (t : String.string) (tx ty : Q) (s : Surface) :
  width (target (fillText blend textCoverage t tx ty s)) = width (target s)
  /\ height (target (fillText blend textCoverage t tx ty s))
     = height (target s).
Proof. split; reflexivity. Qed.

Lemma size_fillRect (rx ry rw rh : Z) (s : Surface) :
  width (target (fillRect blend rx ry rw rh s)) = width (target s)
  /\ height (target (fillRect blend rx ry rw rh s)) = height (target s).
Proof. split; reflexivity. Qed.

Lemma size_stroke (s : Surface) :
  width (target (stroke blend s)) = width (target s)
  /\ height (target (stroke blend s)) = height (target s).
Proof. split; reflexivity. Qed.

Lemma bitmap_stroke (s : Surface) (px py : Z) :
  bitmap (target (stroke blend s)) px py
  = if inCanvas (target s) px py && strokeCovers s px py
    then compose blend (strokeStyle s) (bitmap (target s) px py)
    else bitmap (target s) px py.
Proof.
  unfold stroke. rewrite bitmap_paintPixels.
  now destruct (inCanvas (target s) px py), (strokeCovers s px py).
Qed.

(** Assignments to the drawing state leave the canvas alone. *)
Lemma target_state (s : Surface) :
  (forall v, target (set_fillStyle s v) = target s)
  /\ (forall v, target (set_strokeStyle s v) = target s)
  /\ (forall v, target (set_lineWidth s v) = target s)
  /\ (forall v, target (set_font s v) = target s)
  /\ (forall v, target (set_textAlign s v) = target s)
  /\ (forall v, target (set_textBaseline s v) = target s)
  /\ target (beginPath s) = target s
  /\ (forall a b, target (moveTo s a b) = target s)
  /\ (forall a b, target (lineTo s a b) = target s).
Proof. repeat split. Qed.

Ltac keep_target :=
  repeat first
    [ rewrite (proj1 (target_state _))
    | rewrite (proj1 (proj2 (target_state _)))
    | rewrite (proj1 (proj2 (proj2 (target_state _))))
    | rewrite (proj1 (proj2 (proj2 (proj2 (target_state _)))))
    | rewrite (proj1 (proj2 (proj2 (proj2 (proj2 (target_state _))))))
    | rewrite (proj1 (proj2 (proj2 (proj2 (proj2 (proj2 (target_state _)))))))
    | rewrite (proj1 (proj2 (proj2 (proj2 (proj2 (proj2 (proj2
                 (target_state _))))))))
    | rewrite (proj1 (proj2 (proj2 (proj2 (proj2 (proj2 (proj2 (proj2
                 (target_state _)))))))))
    | rewrite (proj2 (proj2 (proj2 (proj2 (proj2 (proj2 (proj2 (proj2
                 (target_state _))))))))) ].

Ltac keep_size :=
  repeat first
    [ progress keep_target
    | rewrite (proj1 (size_fillText _ _ _ _))
    | rewrite (proj2 (size_fillText _ _ _ _))
    | rewrite (proj1 (size_stroke _))
    | rewrite (proj2 (size_stroke _))
    | rewrite (proj1 (size_fillRect _ _ _ _ _))
    | rewrite (proj2 (size_fillRect _ _ _ _ _))
    | rewrite (proj1 (target_paintPixels _ _))
    | rewrite (proj2 (target_paintPixels _ _)) ].

(** The canvas the report is painted on and the image that is
    encoded, for a non-empty original: the image is 150 rows higher;
    where no text is drawn, the rows above the divider are those of
    the original and the four rows of the divider are green. *)
Lemma generate_run (rect : Rect) (m : Profile) (c : HTMLCanvasElement) :
  0 < width c -> 0 < height c ->
  exists px,
    generateEvidenceImage blend textCoverage toUpperCase rect m c
    = (Normal (DataURLPng (width c) (height c + 150) px), c)
    /\ (forall x y, noTextAt textCoverage x y -> 0 <= x < width c ->
          (0 <= y < height c - 2 -> px x y = bitmap c x y)
          /\ (0 <= y -> height c - 2 <= y < height c + 2 ->
              px x y = rgba 0 255 65 255)).
Proof.
  intros Pw Ph. unfold generateEvidenceImage.
  cbn [getContext2d setHeight setWidth createElementCanvas contextMode
         width height bitmap].
  unfold drawImage.
  destruct ((width c =? 0) || (height c =? 0)) eqn:Z0;
    [apply orb_true_iff in Z0; lia|].
  cbv zeta.
  match goal with
  | |- context [paintPixels (newSurface ?cv) ?f] =>
      set (copied := paintPixels (newSurface cv) f)
  end.
  assert (Sz : width (target copied) = width c
               /\ height (target copied) = height c + 150)
    by (split; reflexivity).
  assert (Cp : forall x y, 0 <= x < width c -> 0 <= y < height c ->
                 bitmap (target copied) x y = bitmap c x y).
  { intros x y Bx By. unfold copied. rewrite bitmap_paintPixels.
    cbn [target newSurface bitmap]. rewrite !Z.sub_0_r.
    rewrite (proj2 (inCanvas_iff c x y)) by lia.
    rewrite compose_on_transparent.
    match goal with |- (if ?b then _ else _) = _ => destruct b eqn:IC end;
      [reflexivity|].
    exfalso. apply not_true_iff_false in IC. apply IC.
    apply inCanvas_iff. cbn [width height]. lia. }
  clearbody copied. destruct Sz as [Sw Sh].
  eexists. split.
  - unfold toDataURL. keep_size. rewrite Sw, Sh.
    destruct ((width c =? 0) || (height c + 150 =? 0)) eqn:Z1;
      [apply orb_true_iff in Z1; lia|].
    reflexivity.
  - intros x y N Bx.
    repeat first [ progress keep_target
                 | rewrite (bitmap_fillText _ _ _ _ x y N) ].
    rewrite bitmap_stroke. keep_target.
    unfold strokeCovers.
    cbn [path lineWidth strokeStyle lineTo moveTo beginPath set_path
           set_lineWidth set_strokeStyle app].
    keep_size. rewrite ?Sw.
    change (Z.even 4) with true. change (4 / 2) with 2.
    rewrite Z.eqb_refl, Z.min_l, Z.max_r by lia. cbn [andb].
    assert (IC : 0 <= y < height c + 150 ->
                 inCanvas (target (fillRect blend 0 (height c) (width c) 150
                                     (set_fillStyle copied (rgba 0 0 0 255))))
                   x y = true).
    { intros By. apply inCanvas_iff. keep_size. lia. }
    split.
    + intros By. rewrite IC by lia.
      destruct (Z.leb_spec (height c - 2) y); [lia|].
      rewrite !andb_false_r. cbn [andb].
      rewrite bitmap_fillRect_outside.
      * keep_target. apply Cp; lia.
      * apply not_true_iff_false. rewrite insideRect_iff.
        cbn [Rect.x Rect.y Rect.w Rect.h]. lia.
    + intros By0 By. rewrite IC by lia.
      destruct (Z.leb_spec 0 x); [|lia].
      destruct (Z.ltb_spec x (width c)); [|lia].
      destruct (Z.leb_spec (height c - 2) y); [|lia].
      destruct (Z.ltb_spec y (height c + 2)); [|lia].
      cbn [andb]. now rewrite compose_opaque.
Qed.

(** Below the divider the footer band is opaque black wherever no text
    is drawn. *)
Lemma generate_footer (rect : Rect) (m : Profile) (c : HTMLCanvasElement) :
  0 < width c -> 0 < height c ->
  exists px,
    generateEvidenceImage blend textCoverage toUpperCase rect m c
    = (Normal (DataURLPng (width c) (height c + 150) px), c)
    /\ (forall x y, noTextAt textCoverage x y -> 0 <= x < width c ->
          height c + 2 <= y < height c + 150 -> px x y = rgba 0 0 0 255).
Proof.
  intros Pw Ph. unfold generateEvidenceImage.
  cbn [getContext2d setHeight setWidth createElementCanvas contextMode
         width height bitmap].
  unfold drawImage.
  destruct ((width c =? 0) || (height c =? 0)) eqn:Z0;
    [apply orb_true_iff in Z0; lia|].
  cbv zeta.
  match goal with
  | |- context [paintPixels (newSurface ?cv) ?f] =>
      set (copied := paintPixels (newSurface cv) f)
  end.
  assert (Sz : width (target copied) = width c
               /\ height (target copied) = height c + 150)
    by (split; reflexivity).
  clearbody copied. destruct Sz as [Sw Sh].
  eexists. split.
  - unfold toDataURL. keep_size. rewrite Sw, Sh.
    destruct ((width c =? 0) || (height c + 150 =? 0)) eqn:Z1;
      [apply orb_true_iff in Z1; lia|].
    reflexivity.
  - intros x y N Bx By.
    repeat first [ progress keep_target
                 | rewrite (bitmap_fillText _ _ _ _ x y N) ].
    rewrite bitmap_stroke. keep_target.
    unfold strokeCovers.
    cbn [path lineWidth strokeStyle lineTo moveTo beginPath set_path
           set_lineWidth set_strokeStyle app].
    keep_size. rewrite ?Sw.
    change (Z.even 4) with true. change (4 / 2) with 2.
    destruct (Z.ltb_spec y (height c + 2)); [lia|].
    rewrite !andb_false_r.
    unfold fillRect. rewrite bitmap_paintPixels. keep_target.
    rewrite (proj2 (inCanvas_iff (target copied) x y)) by (rewrite Sw, Sh; lia).
    rewrite (proj2 (insideRect_iff _ x y))
      by (cbn [Rect.x Rect.y Rect.w Rect.h]; lia).
    now rewrite compose_opaque.
Qed.

(** An original without pixels cannot be drawn: the call throws, and
    nothing is returned. *)
Lemma generate_empty (rect : Rect) (m : Profile) (c : HTMLCanvasElement) :
  width c = 0 \/ height c = 0 ->
  generateEvidenceImage blend textCoverage toUpperCase rect m c
  = (Throw InvalidStateError, c).
Proof.
  intros Z0. unfold generateEvidenceImage.
  cbn [getContext2d setHeight setWidth createElementCanvas contextMode].
  unfold drawImage.
  destruct ((width c =? 0) || (height c =? 0)) eqn:E; [reflexivity|].
  apply orb_false_iff in E. lia.
Qed.

End PlatformFacts.




(** ** Calls in sequence *)

Section Calls.

Variable blend : RGBA -> RGBA -> RGBA.
Variable textCoverage :
  Font -> TextAlign -> TextBaseline -> String.string -> Q -> Q -> Z -> Z -> Z.
Variable toUpperCase : String.string -> String.string.

Lemma sameImage_refl (c : HTMLCanvasElement) : sameImage c c.
Proof. unfold sameImage. tauto. Qed.

Lemma sameImage_trans (a b c : HTMLCanvasElement) :
  sameImage a b -> sameImage b c -> sameImage a c.
Proof.
  unfold sameImage. intros (W1 & H1 & B1 & M1) (W2 & H2 & B2 & M2).
  repeat split; try congruence; tauto.
Qed.

Lemma sameImage_getContext (c : HTMLCanvasElement) :
  sameImage c (snd (getContext2d c)).
Proof.
  unfold getContext2d, sameImage.
  destruct (contextMode c) eqn:M; cbn [snd width height bitmap contextMode];
    rewrite ?M; repeat split; congruence.
Qed.

(** Every call leaves the image on the canvas as it found it. *)
Lemma perform_keeps_image (k : Call) (c : HTMLCanvasElement) :
  sameImage c (snd (perform blend textCoverage toUpperCase k c)).
Proof.
  destruct k as [x y|rect|a b l|rect m]; cbn [perform snd].
  - unfold detectRedactionAtPoint, bind, getWidth, getHeight, getImageData, ret.
    pose proof (sameImage_getContext c) as G.
    destruct (getContext2d c) as [[[ctx|]|e] c1]; cbn [snd] in *;
      try exact G.
    repeat match goal with
           | |- context [if ?b then _ else _] => destruct b
           end; exact G.
  - unfold analyzeLazyRedaction, bind, getImageData, ret.
    pose proof (sameImage_getContext c) as G.
    destruct (getContext2d c) as [[[ctx|]|e] c1]; cbn [snd] in *;
      try exact G.
    repeat match goal with
           | |- context [if ?b then _ else _] => destruct b
           end; exact G.
  - apply sameImage_refl.
  - replace (snd (generateEvidenceImage blend textCoverage toUpperCase rect m c))
      with c; [apply sameImage_refl|].
    unfold generateEvidenceImage.
    cbn [getContext2d setHeight setWidth createElementCanvas contextMode].
    now destruct (drawImage blend c 0 0 _).
Qed.

Lemma rectBytes_sameImage (c c' : HTMLCanvasElement) (x0 y0 : Z)
  (cols rows : nat) :
  sameImage c c' -> rectBytes c x0 y0 cols rows = rectBytes c' x0 y0 cols rows.
Proof.
  intros (W & H & B & _). unfold rectBytes, rectPixels. f_equal.
  apply map_ext. intros p. unfold pixelAt, inCanvas. now rewrite W, H, B.
Qed.

(** The answer of a call depends on the image alone. *)
Lemma perform_reads_image (k : Call) (c c' : HTMLCanvasElement) :
  sameImage c c' -> fst (perform blend textCoverage toUpperCase k c) = fst (perform blend textCoverage toUpperCase k c').
Proof.
  intros S. pose proof S as (W & H & B & M).
  destruct k as [x y|rect|a b l|rect m]; cbn [perform fst].
  - f_equal. rewrite !detect_run. unfold canvasBytes.
    rewrite <- (rectBytes_sameImage c c' _ _ _ _ S), <- W, <- H.
    destruct (contextMode c) eqn:Mc, (contextMode c') eqn:Mc';
      try reflexivity; exfalso;
      destruct M as [M1 M2]; (specialize (M1 eq_refl) || specialize (M2 eq_refl));
      discriminate.
  - f_equal.
    destruct (contextMode c) eqn:Mc, (contextMode c') eqn:Mc';
      try (exfalso; destruct M as [M1 M2];
           (specialize (M1 eq_refl) || specialize (M2 eq_refl)); discriminate).
    all: try (rewrite !analyze_run by congruence;
              now rewrite (rectBytes_sameImage c c' _ _ _ _ S)).
    unfold analyzeLazyRedaction, bind, getContext2d, ret.
    now rewrite Mc, Mc'.
  - reflexivity.
  - f_equal. destruct c as [w h mo bm], c' as [w' h' mo' bm'].
    cbn [width height bitmap] in W, H, B. subst w' h' bm'.
    unfold generateEvidenceImage.
    cbn [getContext2d setHeight setWidth createElementCanvas contextMode].
    unfold drawImage. cbn [width height].
    destruct ((w =? 0) || (h =? 0)); reflexivity.
Qed.

Lemma performAll_keeps_image (ks : list Call) (c : HTMLCanvasElement) :
  sameImage c (performAll blend textCoverage toUpperCase ks c).
Proof.
  revert c. induction ks as [|k ks IH]; intros c; cbn [performAll].
  - apply sameImage_refl.
  - eapply sameImage_trans; [apply perform_keeps_image | apply IH].
Qed.

(** C9.  The answer of a call is a function of its inputs: whatever calls
    were made before it on the same canvas, in whatever order, it
    answers as it does on the untouched canvas; in particular a call
    repeated right away answers the same. *)
Theorem answers_ignore_history (history : list Call) (k : Call)
  (c : HTMLCanvasElement) :
  fst (perform blend textCoverage toUpperCase k (performAll blend textCoverage toUpperCase history c)) = fst (perform blend textCoverage toUpperCase k c)
  /\ fst (perform blend textCoverage toUpperCase k (snd (perform blend textCoverage toUpperCase k c))) = fst (perform blend textCoverage toUpperCase k c).
Proof.
  split; symmetry; apply perform_reads_image.
  - apply performAll_keeps_image.
  - apply perform_keeps_image.
Qed.

End Calls.

(** ** The detector on a solid block *)

(** The downward scan [while (m > 0 && P (m - 1)) m--] stops on the first
    index of the run of [P] that holds [m - 1]. *)
Lemma scan_down (P : Z -> bool) (lo : Z) (fuel : nat) :
  forall m,
    0 <= lo <= m ->
    (forall z, lo <= z < m -> P z = true) ->
    (lo = 0 \/ P (lo - 1) = false) ->
    (Z.to_nat (m - lo) <= fuel)%nat ->
    while fuel (fun k => (k >? 0) && P (k - 1)) (fun k => k - 1) m = lo.
Proof.
  induction fuel as [|fuel IH]; intros m B Run Stop F.
  - simpl. lia.
  - simpl. destruct (Z.eq_dec m lo) as [->|N].
    + destruct Stop as [->|Stop]; [reflexivity|].
      rewrite Stop, andb_false_r. reflexivity.
    + destruct (Z.gtb_spec m 0); [|lia].
      rewrite Run by lia. cbn [andb].
      apply IH; try assumption; try lia.
      intros z Bz. apply Run. lia.
Qed.

(** The upward scan [while (m < limit - 1 && P (m + 1)) m++] stops on the
    last index of the run. *)
Lemma scan_up (P : Z -> bool) (limit hi : Z) (fuel : nat) :
  forall m,
    m <= hi <= limit - 1 ->
    (forall z, m < z <= hi -> P z = true) ->
    (hi = limit - 1 \/ P (hi + 1) = false) ->
    (Z.to_nat (hi - m) <= fuel)%nat ->
    while fuel (fun k => (k <? limit - 1) && P (k + 1)) (fun k => k + 1) m = hi.
Proof.
  induction fuel as [|fuel IH]; intros m B Run Stop F.
  - simpl. lia.
  - simpl. destruct (Z.eq_dec m hi) as [->|N].
    + destruct Stop as [->|Stop]; [now rewrite Z.ltb_irrefl|].
      rewrite Stop, andb_false_r. reflexivity.
    + destruct (Z.ltb_spec m (limit - 1)); [|lia].
      rewrite Run by lia. cbn [andb].
      apply IH; try assumption; try lia.
      intros z Bz. apply Run. lia.
Qed.

(** On a block canvas the dark pixels are those of the block. *)
Lemma isDark_block (W H : Z) (R : Rect) (x y : Q) :
  blockFits W H R ->
  isDark (canvasBytes (blockCanvas W H R)) W H x y
  = insideRect R (Qfloor x) (Qfloor y).
Proof.
  intros (Fx & Fy & Fw & Fh).
  destruct (outOfRange W H x y) eqn:B.
  - rewrite isDark_outOfRange by assumption. symmetry.
    apply not_true_iff_false. rewrite insideRect_iff.
    unfold outOfRange in B. rewrite !orb_true_iff in B.
    rewrite !Qlt_bool_iff in B. rewrite !Qle_bool_iff in B.
    change 0%Q with (inject_Z 0) in B.
    rewrite !Qfloor_inject_lt, !Qfloor_inject_le in B. lia.
  - pose proof (isDark_canvas (blockCanvas W H R) x y B) as E.
    cbn [width height blockCanvas bitmap] in E. rewrite E.
    now destruct (insideRect R (Qfloor x) (Qfloor y)).
Qed.

(** The three scans on a block canvas, from a probe inside the block:
    the candidate has the corner of the block, and one less than its
    width and height. *)
Lemma scanRect_block (W H : Z) (R : Rect) (x y : Q) :
  blockFits W H R ->
  insideRect R (Qfloor x) (Qfloor y) = true ->
  scanRect (canvasBytes (blockCanvas W H R)) W H x y
  = Rect.make (Rect.x R) (Rect.y R) (Rect.w R - 1) (Rect.h R - 1).
Proof.
  intros F I. pose proof F as (Fx & Fy & Fw & Fh).
  apply insideRect_iff in I. destruct I as [Ix Iy].
  unfold scanRect, padding.
  set (dark := isDark (canvasBytes (blockCanvas W H R)) W H).
  assert (D : forall a b, dark a b = insideRect R (Qfloor a) (Qfloor b))
    by (intros a b; now apply isDark_block).
  assert (In : forall a b, Rect.x R <= a < Rect.x R + Rect.w R ->
                           Rect.y R <= b < Rect.y R + Rect.h R ->
                           insideRect R a b = true)
    by (intros a b Ba Bb; now apply insideRect_iff).
  assert (Out : forall a b, ~ (Rect.x R <= a < Rect.x R + Rect.w R /\
                               Rect.y R <= b < Rect.y R + Rect.h R) ->
                            insideRect R a b = false)
    by (intros a b N; apply not_true_iff_false; now rewrite insideRect_iff).
  rewrite (scan_down (fun z => dark (inject_Z z) y) (Rect.x R));
    [ | lia | intros z Bz; rewrite D, Qfloor_Z; apply In; lia
      | destruct (Z.eq_dec (Rect.x R) 0); [now left|right];
        rewrite D, Qfloor_Z; apply Out; lia
      | lia ].
  rewrite (scan_up (fun z => dark (inject_Z z) y) W (Rect.x R + Rect.w R - 1));
    [ | lia | intros z Bz; rewrite D, Qfloor_Z; apply In; lia
      | destruct (Z.eq_dec (Rect.x R + Rect.w R - 1) (W - 1)); [now left|right];
        rewrite D, Qfloor_Z; apply Out; lia
      | lia ].
  set (centerX := (Rect.x R + (Rect.x R + Rect.w R - 1)) / 2).
  assert (Cx : Rect.x R <= centerX < Rect.x R + Rect.w R).
  { unfold centerX. split.
    - apply Z.div_le_lower_bound; lia.
    - apply Z.div_lt_upper_bound; lia. }
  rewrite (scan_down (fun z => dark (inject_Z centerX) (inject_Z z)) (Rect.y R));
    [ | lia | intros z Bz; rewrite D, !Qfloor_Z; apply In; lia
      | destruct (Z.eq_dec (Rect.y R) 0); [now left|right];
        rewrite D, !Qfloor_Z; apply Out; lia
      | lia ].
  rewrite (scan_up (fun z => dark (inject_Z centerX) (inject_Z z)) H
             (Rect.y R + Rect.h R - 1));
    [ | lia | intros z Bz; rewrite D, !Qfloor_Z; apply In; lia
      | destruct (Z.eq_dec (Rect.y R + Rect.h R - 1) (H - 1)); [now left|right];
        rewrite D, !Qfloor_Z; apply Out; lia
      | lia ].
  set (centerY := (Rect.y R + (Rect.y R + Rect.h R - 1)) / 2).
  assert (Cy : Rect.y R <= centerY < Rect.y R + Rect.h R).
  { unfold centerY. split.
    - apply Z.div_le_lower_bound; lia.
    - apply Z.div_lt_upper_bound; lia. }
  rewrite (scan_down (fun z => dark (inject_Z z) (inject_Z centerY)) (Rect.x R));
    [ | lia | intros z Bz; rewrite D, !Qfloor_Z; apply In; lia
      | destruct (Z.eq_dec (Rect.x R) 0); [now left|right];
        rewrite D, !Qfloor_Z; apply Out; lia
      | lia ].
  rewrite (scan_up (fun z => dark (inject_Z z) (inject_Z centerY)) W
             (Rect.x R + Rect.w R - 1));
    [ | lia | intros z Bz; rewrite D, !Qfloor_Z; apply In; lia
      | destruct (Z.eq_dec (Rect.x R + Rect.w R - 1) (W - 1)); [now left|right];
        rewrite D, !Qfloor_Z; apply Out; lia
      | lia ].
  f_equal; lia.
Qed.

(** What the detector returns for a solid black block on white, probed
    anywhere inside the block: the block's corner with one less than its
    width and height, provided both are at least 6; NotFound
    otherwise. *)
Lemma detect_block (W H : Z) (R : Rect) (x y : Q) :
  blockFits W H R ->
  insideRect R (Qfloor x) (Qfloor y) = true ->
  fst (detectRedactionAtPoint x y (blockCanvas W H R))
  = Normal
      (if (Rect.w R - 1 <? 5) || (Rect.h R - 1 <? 5) then None
       else Some (Rect.make (Rect.x R) (Rect.y R) (Rect.w R - 1) (Rect.h R - 1))).
Proof.
  intros F I. rewrite detect_run.
  cbn [contextMode blockCanvas width height].
  change (mkCanvas W H ModeNone
            (fun px py => if insideRect R px py then black else white))
    with (blockCanvas W H R).
  rewrite isDark_block, I by assumption. cbn [negb].
  rewrite scanRect_block by assumption. cbn [Rect.w Rect.h].
  destruct (outOfRange W H x y) eqn:B; [|reflexivity].
  exfalso. pose proof (isDark_block W H R x y F) as E.
  rewrite isDark_outOfRange in E by assumption. congruence.
Qed.

(** C1 fails on the code.  On the 100 x 100 canvas with the block
    [{x:10, y:10, w:40, h:20}], the probes (15,15), (30,20) and (49,29)
    all return [{10, 10, 39, 19}]: the same rect whichever interior
    point is probed, but one less than the block in width and height. *)
Theorem detect_block_off_by_one :
  fst (detectRedactionAtPoint 15 15 (blockCanvas 100 100 specBlock))
  = Normal (Some (Rect.make 10 10 39 19))
  /\ fst (detectRedactionAtPoint 30 20 (blockCanvas 100 100 specBlock))
     = Normal (Some (Rect.make 10 10 39 19))
  /\ fst (detectRedactionAtPoint 49 29 (blockCanvas 100 100 specBlock))
     = Normal (Some (Rect.make 10 10 39 19))
  /\ Rect.make 10 10 39 19 <> specBlock.
Proof.
  repeat split; try (vm_compute; reflexivity). discriminate.
Qed.

(** ** Sanity checks of the embedding *)

(** Luminance is the binary64 value the engine computes: for the colour
    (15, 87, 39) the exact weighted sum is 60, the computed one lies just
    below it, and the pixel counts as dark. *)
Lemma luminance_is_binary64 :
  299 * 15 + 587 * 87 + 114 * 39 = 60000
  /\ pixelDark (rgba 15 87 39 255) = true
  /\ pixelDark black = true /\ pixelDark white = false.
Proof. repeat split. Qed.

Example analyze_gray_canvas :
  fst (analyzeLazyRedaction (Rect.make 0 0 2 2) grayCanvas) = Normal true
  /\ fst (analyzeLazyRedaction (Rect.make 0 0 2 3) sampleCanvas) = Normal false.
Proof. split; reflexivity. Qed.

(** At the inputs evaluated above the quotients are exact in binary64,
    and so is the comparison with 0.05 at the 5% boundary: the rational
    model and the engine agree there. *)
Example quotients_in_binary64 :
  ((100 / (50 / 5) =? 10) = true
   /\ (-5 / (2 / 1) =? -2.5) = true
   /\ (0.05 <? 1 / 20) = false
   /\ (0.05 <? 4 / 4) = true
   /\ (0.05 <? 6 / 119) = true)%float.
Proof. repeat split. Qed.

(** A block of width or height 5 is not reported at all. *)
Example detect_small_block :
  fst (detectRedactionAtPoint 3 3 (blockCanvas 8 8 (Rect.make 1 1 5 5)))
  = Normal None.
Proof. vm_compute. reflexivity. Qed.

(** * Further properties *)

(** ** What the scans guarantee on any image *)

(** The downward scan only moves down, never below 0 from a start at or
    above 0, and every index it passed satisfies [P]. *)
Lemma scan_down_run (P : Z -> bool) (fuel : nat) :
  forall m,
    let lo := while fuel (fun k => (k >? 0) && P (k - 1)) (fun k => k - 1) m in
    lo <= m /\ (0 <= m -> 0 <= lo) /\ forall z, lo <= z < m -> P z = true.
Proof.
  induction fuel as [|fuel IH]; intros m; simpl.
  - repeat split; lia.
  - destruct ((m >? 0) && P (m - 1)) eqn:C.
    + apply andb_true_iff in C. destruct C as [C1 C2].
      apply Z.gtb_lt in C1. destruct (IH (m - 1)) as (A & B & R).
      repeat split; try lia.
      intros z Bz. destruct (Z.eq_dec z (m - 1)) as [->|N]; [exact C2|].
      apply R. lia.
    + repeat split; lia.
Qed.

(** The upward scan only moves up, never beyond [limit - 1] from a start
    at or below it, and every index it passed satisfies [P]. *)
Lemma scan_up_run (P : Z -> bool) (limit : Z) (fuel : nat) :
  forall m,
    let hi := while fuel (fun k => (k <? limit - 1) && P (k + 1))
                (fun k => k + 1) m in
    m <= hi /\ (m <= limit - 1 -> hi <= limit - 1)
    /\ forall z, m < z <= hi -> P z = true.
Proof.
  induction fuel as [|fuel IH]; intros m; simpl.
  - repeat split; lia.
  - destruct ((m <? limit - 1) && P (m + 1)) eqn:C.
    + apply andb_true_iff in C. destruct C as [C1 C2].
      apply Z.ltb_lt in C1. destruct (IH (m + 1)) as (A & B & R).
      repeat split; try lia.
      intros z Bz. destruct (Z.eq_dec z (m + 1)) as [->|N]; [exact C2|].
      apply R. lia.
    + repeat split; lia.
Qed.

(** [isDark] at integer coordinates inside the canvas. *)
Lemma isDark_pixel (c : HTMLCanvasElement) (a b : Z) :
  0 <= a < width c -> 0 <= b < height c ->
  isDark (canvasBytes c) (width c) (height c) (inject_Z a) (inject_Z b)
  = pixelDark (bitmap c a b).
Proof.
  intros Ba Bb. rewrite isDark_canvas, !Qfloor_Z; [reflexivity|].
  apply outOfRange_false. change 0%Q with (inject_Z 0).
  rewrite <- !Zle_Qle, <- !Zlt_Qlt. lia.
Qed.

Lemma isDark_row (c : HTMLCanvasElement) (a : Z) (y : Q) :
  0 <= a < width c -> 0 <= Qfloor y < height c ->
  isDark (canvasBytes c) (width c) (height c) (inject_Z a) y
  = pixelDark (bitmap c a (Qfloor y)).
Proof.
  intros Ba By. rewrite isDark_canvas, Qfloor_Z; [reflexivity|].
  apply outOfRange_false. change 0%Q with (inject_Z 0).
  rewrite <- Zle_Qle, <- Zlt_Qlt.
  rewrite Qfloor_inject_le, Qfloor_inject_lt. lia.
Qed.

(** X1.  Soundness of the detector on any image.  A rect it returns lies
    inside the canvas, its rows include the row of the probe, every pixel
    of its middle row between its first and last column is dark, and that
    run of dark pixels cannot be extended on either side. *)
Theorem detect_sound (c : HTMLCanvasElement) (x y : Q) (rect : Rect) :
  fst (detectRedactionAtPoint x y c) = Normal (Some rect) ->
  let midY := (Rect.y rect + (Rect.y rect + Rect.h rect)) / 2 in
  (0 <= Rect.x rect /\ Rect.x rect + Rect.w rect <= width c - 1
   /\ 0 <= Rect.y rect /\ Rect.y rect + Rect.h rect <= height c - 1)
  /\ Rect.y rect <= Qfloor y <= Rect.y rect + Rect.h rect
  /\ (forall k, Rect.x rect <= k <= Rect.x rect + Rect.w rect ->
        pixelDark (bitmap c k midY) = true)
  /\ (Rect.x rect = 0 \/ pixelDark (bitmap c (Rect.x rect - 1) midY) = false)
  /\ (Rect.x rect + Rect.w rect = width c - 1
      \/ pixelDark (bitmap c (Rect.x rect + Rect.w rect + 1) midY) = false).
Proof.
  rewrite detect_run. cbv zeta.
  set (W := width c). set (H := height c).
  set (d := canvasBytes c).
  intros E.
  assert (E' : outOfRange W H x y = false
               /\ isDark d W H x y = true
               /\ rect = scanRect d W H x y).
  { destruct (contextMode c); try discriminate;
      destruct (outOfRange W H x y); try discriminate;
      destruct (isDark d W H x y); try discriminate; cbn [negb] in E;
      destruct ((Rect.w (scanRect d W H x y) <? 5)
                || (Rect.h (scanRect d W H x y) <? 5)); try discriminate;
      inversion E; auto. }
  clear E. destruct E' as (B & S0 & ->).
  pose proof (inRange_floor W H x y B) as [Bx By].
  unfold scanRect, padding. fold d.
  set (dark := isDark d W H).
  set (fx := Qfloor x) in *. set (fy := Qfloor y) in *.
  (* first horizontal scan, on the row of the probe *)
  pose proof (scan_down_run (fun k => dark (inject_Z k) y) (Z.to_nat fx) fx)
    as (L1 & L1' & R1).
  pose proof (scan_up_run (fun k => dark (inject_Z k) y) W
                (Z.to_nat (W - 1 - fx)) fx) as (U1 & U1' & V1).
  cbv beta in L1, L1', R1, U1, U1', V1.
  set (minX := while (Z.to_nat fx)
                 (fun m => (m >? 0) && dark (inject_Z (m - 1)) y)
                 (fun m => m - 1) fx) in *.
  set (maxX := while (Z.to_nat (W - 1 - fx))
                 (fun m => (m <? W - 1) && dark (inject_Z (m + 1)) y)
                 (fun m => m + 1) fx) in *.
  assert (Row1 : forall k, minX <= k <= maxX ->
                           pixelDark (bitmap c k fy) = true).
  { intros k Bk.
    destruct (Z.eq_dec k fx) as [->|N].
    - unfold d, W, H in S0. rewrite isDark_canvas in S0 by exact B. exact S0.
    - unfold fy. rewrite <- isDark_row by (fold W; fold H; lia).
      destruct (Z_lt_le_dec k fx); [apply R1 | apply V1]; lia. }
  set (centerX := (minX + maxX) / 2) in *.
  assert (Cx : minX <= centerX <= maxX).
  { unfold centerX. split.
    - apply Z.div_le_lower_bound; lia.
    - apply Z.div_le_upper_bound; lia. }
  (* vertical scan, on the column centerX *)
  pose proof (scan_down_run (fun k => dark (inject_Z centerX) (inject_Z k))
                (Z.to_nat fy) fy) as (L2 & L2' & R2).
  pose proof (scan_up_run (fun k => dark (inject_Z centerX) (inject_Z k)) H
                (Z.to_nat (H - 1 - fy)) fy) as (U2 & U2' & V2).
  cbv beta in L2, L2', R2, U2, U2', V2.
  set (minY := while (Z.to_nat fy)
                 (fun m => (m >? 0) && dark (inject_Z centerX) (inject_Z (m - 1)))
                 (fun m => m - 1) fy) in *.
  set (maxY := while (Z.to_nat (H - 1 - fy))
                 (fun m => (m <? H - 1) && dark (inject_Z centerX) (inject_Z (m + 1)))
                 (fun m => m + 1) fy) in *.
  assert (Col : forall k, minY <= k <= maxY ->
                          pixelDark (bitmap c centerX k) = true).
  { intros k Bk.
    destruct (Z.eq_dec k fy) as [->|N]; [apply Row1; lia|].
    rewrite <- isDark_pixel by (fold W; fold H; lia).
    destruct (Z_lt_le_dec k fy); [apply R2 | apply V2]; lia. }
  set (centerY := (minY + maxY) / 2) in *.
  assert (Cy : minY <= centerY <= maxY).
  { unfold centerY. split.
    - apply Z.div_le_lower_bound; lia.
    - apply Z.div_le_upper_bound; lia. }
  (* second horizontal scan, on the row centerY *)
  pose proof (scan_down_run (fun k => dark (inject_Z k) (inject_Z centerY))
                (Z.to_nat centerX) centerX) as (L3 & L3' & R3).
  pose proof (scan_up_run (fun k => dark (inject_Z k) (inject_Z centerY)) W
                (Z.to_nat (W - 1 - centerX)) centerX) as (U3 & U3' & V3).
  pose proof (scans_terminate (fun k => dark (inject_Z k) (inject_Z centerY))
                W centerX) as (T3 & T3').
  cbv beta in L3, L3', R3, U3, U3', V3, T3, T3'.
  set (rMin := while (Z.to_nat centerX)
                 (fun m => (m >? 0) && dark (inject_Z (m - 1)) (inject_Z centerY))
                 (fun m => m - 1) centerX) in *.
  set (rMax := while (Z.to_nat (W - 1 - centerX))
                 (fun m => (m <? W - 1) && dark (inject_Z (m + 1)) (inject_Z centerY))
                 (fun m => m + 1) centerX) in *.
  cbn [Rect.x Rect.y Rect.w Rect.h].
  replace (minY - 0 + (minY - 0 + (maxY - minY + 0 * 2)))
    with (minY + maxY) by lia.
  fold centerY.
  replace (rMin - 0 + (rMax - rMin + 0 * 2)) with rMax by lia.
  replace (minY - 0 + (maxY - minY + 0 * 2)) with maxY by lia.
  rewrite !Z.sub_0_r.
  split; [lia|]. split; [lia|]. split; [|split].
  - intros k Bk.
    destruct (Z.eq_dec k centerX) as [->|N]; [apply Col; lia|].
    rewrite <- isDark_pixel by (fold W; fold H; lia).
    destruct (Z_lt_le_dec k centerX); [apply R3 | apply V3]; lia.
  - apply andb_false_iff in T3. destruct T3 as [T|T].
    + left. rewrite Z.gtb_ltb in T. apply Z.ltb_ge in T. lia.
    + destruct (Z.eq_dec rMin 0); [now left|right].
      rewrite <- isDark_pixel by (fold W; fold H; lia). exact T.
  - apply andb_false_iff in T3'. destruct T3' as [T|T].
    + left. apply Z.ltb_ge in T. lia.
    + destruct (Z.eq_dec rMax (W - 1)); [now left|right].
      rewrite <- isDark_pixel by (fold W; fold H; lia). exact T.
Qed.

Lemma detect_sound_witness :
  let c := blockCanvas 8 8 (Rect.make 1 1 6 6) in
  let rect := Rect.make 1 1 5 5 in
  let midY := (Rect.y rect + (Rect.y rect + Rect.h rect)) / 2 in
  (0 <= Rect.x rect /\ Rect.x rect + Rect.w rect <= width c - 1
   /\ 0 <= Rect.y rect /\ Rect.y rect + Rect.h rect <= height c - 1)
  /\ Rect.y rect <= Qfloor 3 <= Rect.y rect + Rect.h rect
  /\ (forall k, Rect.x rect <= k <= Rect.x rect + Rect.w rect ->
        pixelDark (bitmap c k midY) = true)
  /\ (Rect.x rect = 0 \/ pixelDark (bitmap c (Rect.x rect - 1) midY) = false)
  /\ (Rect.x rect + Rect.w rect = width c - 1
      \/ pixelDark (bitmap c (Rect.x rect + Rect.w rect + 1) midY) = false).
Proof.
  apply (detect_sound (blockCanvas 8 8 (Rect.make 1 1 6 6)) 3 3
           (Rect.make 1 1 5 5)).
  vm_compute. reflexivity.
Defined.

(** ** The classifier *)

(** The answer of the classifier in terms of the count of the
    mid-luminance pixels, for a rect with positive sides. *)
Lemma analyze_count (c : HTMLCanvasElement) (rect : Rect) :
  contextMode c <> ModeOther ->
  0 < Rect.w rect -> 0 < Rect.h rect ->
  fst (analyzeLazyRedaction rect c)
  = Normal (Rect.w rect * Rect.h rect <? 20 * suspiciousInside c rect).
Proof.
  intros M Pw Ph. rewrite analyze_run by assumption.
  destruct ((Rect.w rect =? 0) || (Rect.h rect =? 0)) eqn:Z0;
    [apply orb_true_iff in Z0; lia|].
  rewrite !Z.min_l, !Z.abs_eq by lia.
  unfold rectBytes. rewrite countLoop_pixels.
  rewrite suspicious_rectPixels by lia.
  f_equal. apply eq_true_iff_eq.
  rewrite ratio_exceeds by nia. rewrite Z.ltb_lt.
  unfold Qlt, Qmult, inject_Z. cbn [Qnum Qden].
  change (Z.pos (100 * 1)) with 100. lia.
Qed.

Lemma filter_all {A : Type} (P : A -> bool) (l : list A) :
  (forall a, In a l -> P a = true) -> filter P l = l.
Proof.
  induction l as [|a l IH]; intros N; simpl; [reflexivity|].
  rewrite (N a (or_introl eq_refl)). f_equal. apply IH.
  intros b I. apply N. now right.
Qed.

(** X2.  A fill without mid-tones is never flagged: when no pixel of the
    canvas inside the rect has a luminance strictly between 30 and 250
    (solid black on a white page, say), the classifier answers false. *)
Theorem analyze_no_midtones (c : HTMLCanvasElement) (rect : Rect) :
  contextMode c <> ModeOther ->
  0 < Rect.w rect -> 0 < Rect.h rect ->
  (forall px py, inCanvas c px py = true -> insideRect rect px py = true ->
                 pixelSuspicious (bitmap c px py) = false) ->
  fst (analyzeLazyRedaction rect c) = Normal false.
Proof.
  intros M Pw Ph N. rewrite analyze_count by assumption. f_equal.
  assert (E0 : suspiciousInside c rect = 0).
  { unfold suspiciousInside. rewrite filter_none; [reflexivity|].
    intros [px py] I. cbn [fst snd]. apply in_grid in I.
    destruct (insideRect rect px py) eqn:IR; [|reflexivity].
    cbn [andb]. apply N; [|exact IR]. apply inCanvas_iff. lia. }
  rewrite E0. apply Z.ltb_ge. nia.
Qed.

Lemma analyze_no_midtones_witness :
  fst (analyzeLazyRedaction (Rect.make 0 0 2 3) sampleCanvas) = Normal false.
Proof.
  apply (analyze_no_midtones sampleCanvas (Rect.make 0 0 2 3));
    [discriminate | reflexivity | reflexivity |].
  intros px py _ _. cbn [sampleCanvas blockCanvas bitmap].
  destruct (insideRect (Rect.make 0 0 1 1) px py); reflexivity.
Defined.

(** X3.  A rect that lies on the canvas and holds mid-tone pixels only is
    flagged: the classifier answers true. *)
Theorem analyze_all_midtones (c : HTMLCanvasElement) (rect : Rect) :
  contextMode c <> ModeOther ->
  0 < Rect.w rect -> 0 < Rect.h rect ->
  0 <= Rect.x rect -> Rect.x rect + Rect.w rect <= width c ->
  0 <= Rect.y rect -> Rect.y rect + Rect.h rect <= height c ->
  (forall px py, insideRect rect px py = true ->
                 pixelSuspicious (bitmap c px py) = true) ->
  fst (analyzeLazyRedaction rect c) = Normal true.
Proof.
  intros M Pw Ph Bx Bw By Bh N. rewrite analyze_count by assumption. f_equal.
  assert (E : suspiciousInside c rect = Rect.w rect * Rect.h rect).
  { rewrite <- suspicious_rectPixels by lia.
    rewrite filter_all.
    - unfold rectPixels. rewrite length_map, length_grid. nia.
    - intros p I. unfold rectPixels in I. apply in_map_iff in I.
      destruct I as [[px py] [<- G]]. cbn [fst snd]. apply in_grid in G.
      unfold pixelAt. rewrite (proj2 (inCanvas_iff c px py)) by lia.
      apply N. apply insideRect_iff. lia. }
  rewrite E. apply Z.ltb_lt. nia.
Qed.

Lemma analyze_all_midtones_witness :
  fst (analyzeLazyRedaction (Rect.make 0 0 2 2) grayCanvas) = Normal true.
Proof.
  apply (analyze_all_midtones grayCanvas (Rect.make 0 0 2 2));
    [discriminate | reflexivity | reflexivity | discriminate | discriminate
    | discriminate | discriminate |].
  intros px py _. reflexivity.
Defined.

(** The rectangle of the canvas that [getImageData] reads for [rect]. *)
Lemma rectBytes_ext (c c' : HTMLCanvasElement) (x0 y0 : Z) (cols rows : nat) :
  width c = width c' -> height c = height c' ->
  (forall px py,
      x0 <= px < x0 + Z.of_nat cols -> y0 <= py < y0 + Z.of_nat rows ->
      bitmap c px py = bitmap c' px py) ->
  rectBytes c x0 y0 cols rows = rectBytes c' x0 y0 cols rows.
Proof.
  intros W H B. unfold rectBytes, rectPixels. f_equal.
  apply map_ext_in. intros [px py] I. apply in_grid in I. cbn [fst snd].
  unfold pixelAt, inCanvas. rewrite <- W, <- H.
  destruct ((0 <=? px) && (px <? width c) && (0 <=? py) && (py <? height c));
    [|reflexivity].
  apply B; lia.
Qed.

(** X4.  The classifier looks at nothing but the pixels inside the rect:
    two canvases of the same size that agree there get the same answer,
    whatever differs elsewhere. *)
Theorem analyze_reads_rect_only (c c' : HTMLCanvasElement) (rect : Rect) :
  width c = width c' -> height c = height c' ->
  (contextMode c = ModeOther <-> contextMode c' = ModeOther) ->
  (forall px py, insideRect rect px py = true ->
                 bitmap c px py = bitmap c' px py) ->
  0 <= Rect.w rect -> 0 <= Rect.h rect ->
  fst (analyzeLazyRedaction rect c) = fst (analyzeLazyRedaction rect c').
Proof.
  intros W H M B Pw Ph.
  destruct (contextMode c) eqn:Mc, (contextMode c') eqn:Mc';
    try (exfalso; destruct M as [M1 M2];
         (specialize (M1 eq_refl) || specialize (M2 eq_refl)); discriminate).
  all: try (rewrite !analyze_run by congruence;
            rewrite !Z.min_l, !Z.abs_eq by lia;
            rewrite (rectBytes_ext c c'); [reflexivity | assumption.. |];
            intros px py Bx By; apply B; apply insideRect_iff; lia).
  unfold analyzeLazyRedaction, bind, getContext2d, ret. now rewrite Mc, Mc'.
Qed.

Lemma analyze_reads_rect_only_witness :
  fst (analyzeLazyRedaction (Rect.make 0 0 1 1) sampleCanvas)
  = fst (analyzeLazyRedaction (Rect.make 0 0 1 1)
           (blockCanvas 2 3 (Rect.make 0 0 2 3))).
Proof.
  apply (analyze_reads_rect_only sampleCanvas
           (blockCanvas 2 3 (Rect.make 0 0 2 3)) (Rect.make 0 0 1 1));
    [reflexivity | reflexivity | split; discriminate | | discriminate
    | discriminate].
  intros px py I. cbn [sampleCanvas blockCanvas bitmap]. rewrite I.
  apply insideRect_iff in I. cbn [Rect.x Rect.y Rect.w Rect.h] in I.
  rewrite (proj2 (insideRect_iff (Rect.make 0 0 2 3) px py)); [reflexivity|].
  cbn [Rect.x Rect.y Rect.w Rect.h]. lia.
Defined.



(** ** The estimator *)

Lemma Qfloor_half (m : Z) (q : Q) :
  (q == inject_Z m)%Q -> Qfloor (q + (1 # 2)) = m.
Proof.
  intros E. apply Z.le_antisymm.
  - assert (L : Qfloor (q + (1 # 2)) < m + 1); [|lia].
    apply Qfloor_inject_lt. rewrite E, inject_Z_plus.
    change (inject_Z 1) with 1%Q. lra.
  - apply Qfloor_inject_le. rewrite E. lra.
Qed.







(** ** The canvas editor *)

Lemma num_gt_ge (a b : number) : num_gt a b = true -> num_ge a b = true.
Proof.
  destruct a as [p| | |], b as [q| | |]; simpl; try discriminate;
    try reflexivity.
  intros L. apply Qlt_bool_iff in L. apply negb_true_iff.
  apply Qlt_bool_false_iff. now apply Qlt_le_weak.
Qed.

Lemma num_ge_ofZ (z k : Z) : k <= z -> num_ge (ofZ z) (Fin (inject_Z k)) = true.
Proof.
  intros L. simpl. apply negb_true_iff, Qlt_bool_false_iff.
  now rewrite <- Zle_Qle.
Qed.

(** The detector called with any numbers answers a rect for finite
    probes only, and then as [detectRedactionAtPoint] does. *)
Lemma detectRedactionAtNumber_some (sx sy : number) (cv cv' : HTMLCanvasElement)
  (rect : Rect) :
  detectRedactionAtNumber sx sy cv = (Normal (Some rect), cv') ->
  exists x y, sx = Fin x /\ sy = Fin y
              /\ detectRedactionAtPoint x y cv = (Normal (Some rect), cv').
Proof.
  destruct sx as [x| | |], sy as [y| | |]; simpl;
    try (intros E; exists x, y; now repeat split).
  all: unfold bind, getContext2d, getWidth, getHeight, getImageData, ret;
    destruct (contextMode cv); simpl;
    repeat match goal with
           | |- context [if ?b then _ else _] => destruct b
           end; discriminate.
Qed.

Lemma detect_some_size (x y : Q) (cv : HTMLCanvasElement) (rect : Rect) :
  fst (detectRedactionAtPoint x y cv) = Normal (Some rect) ->
  5 <= Rect.w rect /\ 5 <= Rect.h rect.
Proof.
  rewrite detect_run. cbv zeta. intros E.
  destruct (contextMode cv); try discriminate;
    destruct (outOfRange (width cv) (height cv) x y); try discriminate;
    destruct (negb (isDark (canvasBytes cv) (width cv) (height cv) x y));
    try discriminate;
    destruct ((Rect.w (scanRect (canvasBytes cv) (width cv) (height cv) x y) <? 5)
              || (Rect.h (scanRect (canvasBytes cv) (width cv) (height cv) x y)
                  <? 5)) eqn:S5; try discriminate;
    inversion E; subst; apply orb_false_iff in S5; destruct S5 as [A B];
    apply Z.ltb_ge in A, B; split; assumption.
Qed.

(** X9.  The gate of [handleEnd].  A release calls at most one
    callback, and every rect it hands over is at least 5 wide and 5
    high: a drawn one is wider and higher than 5, a detected one (a tap
    with the redaction tool) comes from the detector.  The reference
    callback only ever receives the rect that was drawn, with the
    reference tool active. *)
Theorem handleEnd_gate (tool : option Tool)
  (canvas : option (HTMLCanvasElement * DOMRect)) (e : Editor) :
  let r := handleEnd tool canvas e in
  (length (drawn r) <= 1)%nat
  /\ (forall d, In d (drawn r) ->
        num_ge (Box.w (drawnRect d)) (Fin 5) = true
        /\ num_ge (Box.h (drawnRect d)) (Fin 5) = true)
  /\ (forall rect, In (onReferenceDrawn rect) (drawn r) ->
        tool = Some ToolReference /\ currentRect e = Some rect
        /\ num_gt (Box.w rect) (Fin 5) = true
        /\ num_gt (Box.h rect) (Fin 5) = true).
Proof.
  unfold handleEnd.
  destruct (isPanning e); [cbn; repeat split; try lia; contradiction|].
  destruct (isDrawing e); [|cbn; repeat split; try lia; contradiction].
  destruct (currentRect e) as [rect|];
    [|cbn; repeat split; try lia; contradiction].
  destruct (num_gt (Box.w rect) (Fin 5) && num_gt (Box.h rect) (Fin 5)) eqn:G.
  - apply andb_true_iff in G. destruct G as [Gw Gh].
    destruct tool as [[|]|]; cbn; (split; [lia|]); split;
      try (intros d [<-|[]]; cbn; split; now apply num_gt_ge);
      try contradiction;
      try (intros r0 [E|[]]; inversion E; subst; auto);
      try (intros r0 [E|[]]; discriminate E).
  - destruct tool as [[|]|]; try (cbn; repeat split; try lia; contradiction).
    destruct canvas as [[cv box]|];
      [|cbn; repeat split; try lia; contradiction].
    destruct (detectRedactionAtNumber _ _ cv) as [[[found|]|err] cv'] eqn:D;
      try (cbn; repeat split; try lia; contradiction).
    cbn. split; [lia|]. split.
    + intros d [<-|[]]. cbn.
      apply detectRedactionAtNumber_some in D.
      destruct D as (x & y & _ & _ & D).
      assert (S : 5 <= Rect.w found /\ 5 <= Rect.h found).
      { apply (detect_some_size x y cv). now rewrite D. }
      split; apply (num_ge_ofZ _ 5); tauto.
    + intros r0 [E|[]]. discriminate E.
Qed.

Section EditorEvents.

Variable storeScrollLeft : Container -> number -> number.
Variable storeScrollTop : Container -> number -> number.

(** While no drawing is under way, an event other than a press calls no
    callback and starts no drawing. *)
Lemma idle_stays_idle (page : Page) (ev : PointerEvent) (e : Editor) :
  isDrawing e = false -> isPress ev = false ->
  drawn (dispatch storeScrollLeft storeScrollTop page ev e) = []
  /\ isDrawing (editor (dispatch storeScrollLeft storeScrollTop page ev e))
     = false.
Proof.
  intros I P. destruct ev as [cx cy|cx cy| | |touches|t0 others|touches];
    cbn [dispatch drawn editor]; try discriminate.
  - unfold handleMove. rewrite I. cbn. now split.
  - unfold handleEnd. rewrite I. destruct (isPanning e); cbn; now split.
  - unfold handleEnd. rewrite I. destruct (isPanning e); cbn; now split.
  - split; [reflexivity|].
    destruct touches as [|a [|b [|c rest]]]; cbn; try assumption;
      try (cbn in P; discriminate P); reflexivity.
  - split; [reflexivity|]. unfold onTouchMove.
    destruct (isPanning e), others as [|t1 [|t2 rest]],
      (containerOnPage page), (activeTool page);
      cbn; rewrite ?I; cbn; try assumption; reflexivity.
  - unfold onTouchEnd, handleEnd. rewrite I.
    destruct (isPanning e), (length touches <? 2)%nat; cbn; now split.
Qed.

Lemma idle_draws_nothing (events : list (Page * PointerEvent)) :
  forall e,
    isDrawing e = false ->
    (forall pe, In pe events -> isPress (snd pe) = false) ->
    drawnDuring storeScrollLeft storeScrollTop events e = [].
Proof.
  induction events as [|[page ev] rest IH]; intros e I P; [reflexivity|].
  cbn [drawnDuring].
  destruct (idle_stays_idle page ev e I (P (page, ev) (or_introl eq_refl)))
    as [D I'].
  rewrite D, IH; [reflexivity | exact I' |].
  intros pe In'. apply P. now right.
Qed.

(** X10.  A two-finger gesture never draws.  After a touch start with
    two touches, whatever moves and releases follow, no callback is
    called until a new press (a mouse down or a one-finger touch
    start). *)
Theorem two_finger_gesture_draws_nothing (tool : option Tool)
  (canvas : option (HTMLCanvasElement * DOMRect)) (a b : Touch)
  (e : Editor) (events : list (Page * PointerEvent)) :
  (forall pe, In pe events -> isPress (snd pe) = false) ->
  drawnDuring storeScrollLeft storeScrollTop events
    (onTouchStart tool canvas [a; b] e) = [].
Proof.
  intros P. apply idle_draws_nothing; [reflexivity | exact P].
Qed.

End EditorEvents.

Lemma two_finger_gesture_draws_nothing_witness :
  drawnDuring keepScroll keepScroll
    [(somePage, TouchMove (Fin 3, Fin 4) [(Fin 9, Fin 9)]);
     (somePage, TouchEnd [(Fin 3, Fin 4)]);
     (somePage, TouchEnd [])]
    (onTouchStart (Some ToolRedaction) None [(Fin 1, Fin 1); (Fin 8, Fin 8)]
       (handleStart (Some ToolRedaction) None (Fin 1) (Fin 1) idleEditor))
  = [].
Proof.
  apply (two_finger_gesture_draws_nothing keepScroll keepScroll).
  intros pe [<-|[<-|[<-|[]]]]; reflexivity.
Defined.





(** ** Zoom *)

Lemma Math_min_fin (a b : Q) :
  Math_min (Fin a) (Fin b) = Fin (if Qlt_bool b a then b else a).
Proof. unfold Math_min, num_gt. now destruct (Qlt_bool b a). Qed.

Lemma Math_max_fin (a b : Q) :
  Math_max (Fin a) (Fin b) = Fin (if Qlt_bool a b then b else a).
Proof. unfold Math_max, num_gt. now destruct (Qlt_bool a b). Qed.



Section ZoomFacts.

Variable draw : HTMLCanvasElement -> HTMLCanvasElement.
Variable box : Container.
Variable image : ImageSize.
Variable cv : HTMLCanvasElement.

Lemma scaleAfter_in (s : Q) :
  scaleAfter draw box image cv (Fin s) ClickZoomIn = Fin (s * (125 # 100)).
Proof. reflexivity. Qed.

Lemma scaleAfter_out (s : Q) :
  exists q : Q,
    scaleAfter draw box image cv (Fin s) ClickZoomOut = Fin q
    /\ ((1 # 10) <= q /\ s * (8 # 10) <= q)%Q
    /\ (q == 1 # 10 \/ q == s * (8 # 10))%Q.
Proof.
  unfold scaleAfter, handleZoomOut, handleResize, num_mul. cbn [fst].
  rewrite Math_max_fin. eexists. split; [reflexivity|].
  destruct (Qlt_bool (1 # 10) (s * (8 # 10))) eqn:C;
    rewrite ?Qlt_bool_iff, ?Qlt_bool_false_iff in C;
    (split; [split; lra|]); [right|left]; reflexivity.
Qed.


End ZoomFacts.


(** ** The report band of the evidence image *)



(** X16.  An original without pixels (width 0 or height 0) cannot be
    drawn onto the new canvas: [drawImage] throws InvalidStateError, no
    image is produced, and the original is left as it was. *)
Theorem evidence_empty_original_throws
  (blend : RGBA -> RGBA -> RGBA)
  (textCoverage :
     Font -> TextAlign -> TextBaseline -> String.string -> Q -> Q -> Z -> Z -> Z)
  (toUpperCase : String.string -> String.string)
  (rect : Rect) (m : Profile) (c : HTMLCanvasElement) :
  width c = 0 \/ height c = 0 ->
  generateEvidenceImage blend textCoverage toUpperCase rect m c
  = (Throw InvalidStateError, c).
Proof.
  intros Z. now apply generate_empty.
Qed.

Lemma evidence_empty_original_throws_witness :
  generateEvidenceImage noBlend noGlyphs sameCase (Rect.make 0 0 1 1)
    someProfile (blockCanvas 4 0 (Rect.make 0 0 1 1))
  = (Throw InvalidStateError, blockCanvas 4 0 (Rect.make 0 0 1 1)).
Proof.
  apply (evidence_empty_original_throws noBlend noGlyphs sameCase
           (Rect.make 0 0 1 1) someProfile
           (blockCanvas 4 0 (Rect.make 0 0 1 1))).
  right. reflexivity.
Defined.

(** ** A click *)

(** X17.  A click, a press and a release at the same place while no
    gesture pans the view, runs the detector at the canvas coordinates
    of the place: with the redaction tool the redaction callback is
    called exactly when the detector answers a rect, and with that
    rect; with the reference tool nothing is handed over.  Either way
    the editor is no longer drawing. *)
Theorem click_runs_detector (tool : Tool) (cv : HTMLCanvasElement)
  (box : DOMRect) (clientX clientY : number) (e : Editor) :
  isPanning e = false ->
  let canvas := Some (cv, box) in
  let p := getClientCoordinates canvas clientX clientY in
  let r := handleEnd (Some tool) canvas
             (handleStart (Some tool) canvas clientX clientY e) in
  drawn r
  = match tool, fst (detectRedactionAtNumber (Point.x p) (Point.y p) cv) with
    | ToolRedaction, Normal (Some rect) => [onRedactionDrawn (boxOfRect rect)]
    | _, _ => []
    end
  /\ isDrawing (editor r) = false.
Proof.
  intros P. cbv zeta. unfold handleEnd, handleStart.
  cbn [isPanning isDrawing currentRect startPos set_isDrawing set_startPos
       set_currentRect Box.w Box.h Point.x Point.y].
  rewrite P.
  change (num_gt (Fin 0) (Fin 5)) with false. cbn [andb].
  destruct tool.
  - destruct (detectRedactionAtNumber _ _ cv) as [[[found|]|err] cv'];
      cbn; split; reflexivity.
  - cbn. split; reflexivity.
Qed.

Lemma click_runs_detector_witness :
  let cv := blockCanvas 8 8 (Rect.make 1 1 6 6) in
  let canvas := Some (cv, mkDOMRect (Fin 0) (Fin 0) (Fin 8) (Fin 8)) in
  let r := handleEnd (Some ToolRedaction) canvas
             (handleStart (Some ToolRedaction) canvas (Fin 3) (Fin 3)
                idleEditor) in
  drawn r = [onRedactionDrawn (boxOfRect (Rect.make 1 1 5 5))]
  /\ isDrawing (editor r) = false.
Proof.
  cbv zeta.
  destruct (click_runs_detector ToolRedaction
              (blockCanvas 8 8 (Rect.make 1 1 6 6))
              (mkDOMRect (Fin 0) (Fin 0) (Fin 8) (Fin 8)) (Fin 3) (Fin 3)
              idleEditor eq_refl) as [D I].
  split; [|exact I].
  rewrite D. vm_compute. reflexivity.
Defined.

(** ** A drag *)

Lemma handleMove_keeps (tool : option Tool)
  (canvas : option (HTMLCanvasElement * DOMRect)) (cx cy : number)
  (e : Editor) :
  isDrawing (handleMove tool canvas cx cy e) = isDrawing e
  /\ startPos (handleMove tool canvas cx cy e) = startPos e
  /\ isPanning (handleMove tool canvas cx cy e) = isPanning e.
Proof.
  unfold handleMove.
  destruct (negb (isDrawing e) || match tool with None => true | _ => false end);
    repeat split; reflexivity.
Qed.

Lemma moveAll_keeps (tool : option Tool)
  (canvas : option (HTMLCanvasElement * DOMRect))
  (moves : list (number * number)) (e : Editor) :
  isDrawing (moveAll tool canvas moves e) = isDrawing e
  /\ startPos (moveAll tool canvas moves e) = startPos e
  /\ isPanning (moveAll tool canvas moves e) = isPanning e.
Proof.
  unfold moveAll. revert e.
  induction moves as [|m moves IH]; intros e; simpl; [repeat split|].
  destruct (IH (handleMove tool canvas (fst m) (snd m) e)) as (A & B & C).
  destruct (handleMove_keeps tool canvas (fst m) (snd m) e) as (A' & B' & C').
  repeat split; congruence.
Qed.



(** ** The chat input *)

Lemma trimStart_nil (s : JSString) :
  trimStart s = [] <-> forall u, In u s -> isWhiteSpace u = true.
Proof.
  induction s as [|u s IH]; simpl.
  - split; [intros _ v []|reflexivity].
  - destruct (isWhiteSpace u) eqn:W.
    + rewrite IH. split.
      * intros A v [<-|I]; [exact W | now apply A].
      * intros A v I. apply A. now right.
    + split; [discriminate|]. intros A.
      rewrite (A u (or_introl eq_refl)) in W. discriminate.
Qed.

Lemma trimStart_incl (s : JSString) (u : Z) :
  In u (trimStart s) -> In u s.
Proof.
  induction s as [|v s IH]; simpl; [tauto|].
  destruct (isWhiteSpace v); [intros I; right; now apply IH | tauto].
Qed.

Lemma trimStart_keeps (s : JSString) (u : Z) :
  In u s -> isWhiteSpace u = false -> In u (trimStart s).
Proof.
  induction s as [|v s IH]; simpl; [tauto|].
  intros [->|I] W.
  - rewrite W. now left.
  - destruct (isWhiteSpace v); [now apply IH | right; exact I].
Qed.

Lemma trim_truthy (s : JSString) :
  truthy (trim s) = true <-> exists u, In u s /\ isWhiteSpace u = false.
Proof.
  unfold trim. split.
  - intros T.
    destruct (rev (trimStart (rev (trimStart s)))) as [|u r] eqn:E;
      [discriminate|].
    assert (I : In u (rev (trimStart (rev (trimStart s)))))
      by (rewrite E; now left).
    apply in_rev in I.
    assert (N : trimStart (rev (trimStart s)) <> []).
    { intros Z. rewrite Z in E. discriminate. }
    assert (X : exists v, In v (rev (trimStart s)) /\ isWhiteSpace v = false).
    { destruct (existsb (fun v => negb (isWhiteSpace v)) (rev (trimStart s)))
        eqn:X.
      - apply existsb_exists in X. destruct X as (v & Iv & Wv).
        exists v. split; [exact Iv|]. now apply negb_true_iff.
      - exfalso. apply N. apply trimStart_nil. intros v Iv.
        destruct (isWhiteSpace v) eqn:Wv; [reflexivity|].
        assert (Y : existsb (fun v => negb (isWhiteSpace v))
                      (rev (trimStart s)) = true).
        { apply existsb_exists. exists v. split; [exact Iv|]. now rewrite Wv. }
        congruence. }
    destruct X as (v & Iv & Wv). exists v. split; [|exact Wv].
    apply in_rev in Iv. now apply trimStart_incl in Iv.
  - intros (u & I & W).
    assert (I2 : In u (rev (trimStart (rev (trimStart s))))).
    { apply in_rev. rewrite rev_involutive.
      apply trimStart_keeps; [|exact W].
      apply in_rev. rewrite rev_involutive.
      now apply trimStart_keeps. }
    destruct (rev (trimStart (rev (trimStart s)))); [destruct I2|reflexivity].
Qed.

(** X19.  The chat form sends a message exactly when the input holds a
    character that is not white space and no processing is under way.
    The text goes out as typed, blanks around it included, and the input
    field is cleared; otherwise nothing is sent and the field is left
    as it is. *)
Theorem handleSubmit_sends (inputText : JSString) (isProcessing : bool) :
  let r := handleSubmit inputText isProcessing in
  (snd r <> None <->
   isProcessing = false
   /\ exists u, In u inputText /\ isWhiteSpace u = false)
  /\ (forall text, snd r = Some text ->
        text = inputText /\ fst r = [] /\ (1 <= length text)%nat)
  /\ (snd r = None -> fst r = inputText).
Proof.
  unfold handleSubmit.
  destruct (truthy (trim inputText)) eqn:T, isProcessing; cbn.
  - repeat split; try discriminate; try tauto. intros [X _]. discriminate.
  - apply trim_truthy in T. repeat split; try discriminate; try tauto.
    + now inversion H.
    + inversion H; subst. destruct T as (u & I & _).
      destruct text; [destruct I | simpl; lia].
  - repeat split; try discriminate; try tauto. intros [X _]. discriminate.
  - assert (N : ~ exists u, In u inputText /\ isWhiteSpace u = false).
    { intros X. apply trim_truthy in X. congruence. }
    repeat split; try discriminate; try tauto.
Qed.
